(** * Study-assistant application: server glue and client panels

  A shallow embedding of the JavaScript sources

    - [src/api/server.js]            (Express router, adapters)
    - [src/components/StudyChat.jsx] (chat panel)
    - [src/components/QuizGenerator.jsx] (quiz panel)

  together with the properties of the specification that concern them.

  Conventions of the embedding.

  - A JavaScript string is a Rocq [string]; one [ascii] stands for one
    UTF-16 code unit in the range U+0000..U+00FF.  Every string operation
    below ([trim], [toLowerCase], [encodeURIComponent], the regular
    expressions) is the restriction of the ECMAScript one to that range.
  - A JavaScript scalar that may be absent is a [JS.value].
  - An [async] handler is a finite tree ([Proc.t]): awaiting a request is
    a node whose children are indexed by the outcome of the request, and
    a call of a state setter is a node with one child.  Running a tree
    against an oracle for the outside world gives the result, the final
    state and the requests issued, each with the state in which it was
    issued. *)

From Stdlib Require Import String Ascii List ZArith NArith Bool Lia.
From stdpp Require Import base option list gmap fin_maps strings pretty.

Local Open Scope string_scope.
Local Open Scope list_scope.

(** [simpl] unfolds an append whose first argument starts with a
    constructor. *)
#[local] Arguments String.append !_ _ /.

(* ===================================================================== *)
(** * ECMAScript primitives used by the sources *)
(* ===================================================================== *)

Module JS.

(** ** Scalars, truthiness and strict equality *)

Inductive value : Type :=
| JUndefined
| JNull
| JBool (b : bool)
| JNum (z : Z)
| JStr (s : string).

#[global] Instance value_eq_dec : EqDecision value.
Proof. solve_decision. Defined.

(** [ToBoolean]: what [!x], [x || y] and [x ? a : b] test. *)
Definition truthy (v : value) : bool :=
  match v with
  | JUndefined | JNull => false
  | JBool b => b
  | JNum z => negb (z =? 0)%Z
  | JStr s => negb (s =? "")
  end.

(** [a === b] on scalars. *)
Definition strict_eq (a b : value) : bool := bool_decide (a = b).

(** [s || d] where [s] is a string that may be absent. *)
Definition or_default (s : option string) (d : string) : string :=
  match s with
  | Some x => if x =? "" then d else x
  | None => d
  end.

(** ** Code units *)

Definition code (c : ascii) : N := N_of_ascii c.

(** WhiteSpace and LineTerminator code units below U+0100:
    TAB, LF, VT, FF, CR, SP and NBSP.  This is also the class [\s]. *)
Definition isWhiteSpace (c : ascii) : bool :=
  let n := code c in
  ((n =? 9) || (n =? 10) || (n =? 11) || (n =? 12) || (n =? 13)
   || (n =? 32) || (n =? 160))%N.

(** Simple lower-case mapping below U+0100: A-Z, and the capital letters
    U+00C0..U+00DE except the multiplication sign U+00D7. *)
Definition lowerChar (c : ascii) : ascii :=
  let n := code c in
  if ((65 <=? n) && (n <=? 90)
      || (192 <=? n) && (n <=? 222) && negb (n =? 215))%N
  then ascii_of_N (n + 32) else c.

(** ** String.prototype methods *)

Fixpoint toLowerCase (s : string) : string :=
  match s with
  | "" => ""
  | String c s' => String (lowerChar c) (toLowerCase s')
  end.

Fixpoint trimStart (s : string) : string :=
  match s with
  | "" => ""
  | String c s' => if isWhiteSpace c then trimStart s' else s
  end.

Fixpoint trimEnd (s : string) : string :=
  match s with
  | "" => ""
  | String c s' =>
      match trimEnd s' with
      | "" => if isWhiteSpace c then "" else String c ""
      | t => String c t
      end
  end.

Definition trim (s : string) : string := trimEnd (trimStart s).

(** Every code unit is white space. *)
Fixpoint blank (s : string) : bool :=
  match s with
  | "" => true
  | String c s' => isWhiteSpace c && blank s'
  end.

(** [s.startsWith(p)] *)
Fixpoint startsWith (s p : string) {struct p} : bool :=
  match p, s with
  | "", _ => true
  | String _ _, "" => false
  | String a p', String b s' => if Ascii.eqb b a then startsWith s' p' else false
  end.

(** [s.includes(p)] *)
Fixpoint includes (s p : string) : bool :=
  startsWith s p ||
  match s with
  | "" => false
  | String _ s' => includes s' p
  end.

(** [s.slice(n)] for [n >= 0] *)
Fixpoint slice (s : string) (n : nat) : string :=
  match n, s with
  | O, _ => s
  | S _, "" => ""
  | S n', String _ s' => slice s' n'
  end.

(** [l.join(sep)] on an array of strings *)
Fixpoint join (sep : string) (l : list string) : string :=
  match l with
  | [] => ""
  | [x] => x
  | x :: rest => x +:+ sep +:+ join sep rest
  end.

(** ** Exceptions *)

(** A thrown value, seen through its [message] property ([None] when the
    property is absent). *)
Record Thrown : Type := Error { message : option string }.

(** [`${x}`] for a string that may be [undefined] *)
Definition template (s : option string) : string :=
  match s with
  | Some x => x
  | None => "undefined"
  end.

(** ** [encodeURIComponent] *)

Definition char_in (c : ascii) (set : string) : bool :=
  existsb (Ascii.eqb c) (list_ascii_of_string set).

(** The characters left as they are: A-Z a-z 0-9 - _ . ! ~ * ' ( ) *)
Definition isUnreserved (c : ascii) : bool :=
  let n := code c in
  ((65 <=? n) && (n <=? 90) || (97 <=? n) && (n <=? 122)
   || (48 <=? n) && (n <=? 57))%N
  || char_in c "-_.!~*'()".

Definition hexDigit (d : N) : ascii :=
  if (d <? 10)%N then ascii_of_N (48 + d) else ascii_of_N (55 + d).

(** [%XX] for one octet *)
Definition percent (octet : N) : string :=
  String "%" (String (hexDigit (octet / 16)) (String (hexDigit (octet mod 16)) "")).

(** UTF-8 octets of a code point below U+0800 *)
Definition utf8 (n : N) : list N :=
  if (n <? 128)%N then [n] else [(192 + n / 64)%N; (128 + n mod 64)%N].

Definition encodeChar (c : ascii) : string :=
  if isUnreserved c then String c ""
  else String.concat "" (map percent (utf8 (code c))).

Fixpoint encodeURIComponent (s : string) : string :=
  match s with
  | "" => ""
  | String c s' => encodeChar c +:+ encodeURIComponent s'
  end.

(** ** [String.prototype.replace] with a global regular expression

    The expression is given by its matcher: [re s] is [Some rest] when the
    expression matches at the start of [s] and [rest] is what follows the
    match.  The scan goes left to right; after a match it resumes behind
    the match, otherwise it copies one code unit.  [fuel] bounds the number
    of scan steps; one more than the length is enough for a matcher that
    never matches the empty string. *)
Fixpoint replace_scan (fuel : nat) (re : string → option string)
         (repl s : string) : string :=
  match fuel with
  | O => s
  | S fuel' =>
      match re s with
      | Some rest => repl +:+ replace_scan fuel' re repl rest
      | None =>
          match s with
          | "" => ""
          | String c s' => String c (replace_scan fuel' re repl s')
          end
      end
  end.

Definition replace (re : string → option string) (repl s : string) : string :=
  replace_scan (S (String.length s)) re repl s.

(** The regular expression [\s+]: one white space and all that follow. *)
Definition re_spaces (s : string) : option string :=
  match s with
  | "" => None
  | String c s' => if isWhiteSpace c then Some (trimStart s') else None
  end.

(** What follows the literal [p] at the start of [s]. *)
Fixpoint after_literal (p s : string) {struct p} : option string :=
  match p, s with
  | "", _ => Some s
  | String _ _, "" => None
  | String a p', String b s' => if Ascii.eqb b a then after_literal p' s' else None
  end.

(** [[^>]*>]: everything up to and including the next [>]. *)
Fixpoint after_gt (s : string) : option string :=
  match s with
  | "" => None
  | String c s' => if Ascii.eqb c ">" then Some s' else after_gt s'
  end.

(** The regular expression [<\/?span[^>]*>]: the optional slash is tried
    first, then the alternative without it. *)
Definition re_span_tag (s : string) : option string :=
  match after_literal "</span" s with
  | Some r => after_gt r
  | None =>
      match after_literal "<span" s with
      | Some r => after_gt r
      | None => None
      end
  end.

(** Line feed and double quote, which have no literal. *)
Definition LF : string := String (ascii_of_nat 10) "".
Definition DQ : string := String (ascii_of_nat 34) "".

End JS.

(* ===================================================================== *)
(** * Asynchronous handlers as request trees *)
(* ===================================================================== *)

Module Proc.
Section Tree.
Context {St Req : Type} {Out : Req → Type}.

(** [Await r k] awaits the request [r] and goes on with [k] on its
    outcome; [Update f k] is a state setter called with the updater [f]. *)
Inductive t (A : Type) : Type :=
| Ret (a : A)
| Update (f : St → St) (k : t A)
| Await (r : Req) (k : Out r → t A).

#[global] Arguments Ret {A} a.
#[global] Arguments Update {A} f k.
#[global] Arguments Await {A} r k.

Fixpoint bind {A B : Type} (p : t A) (f : A → t B) : t B :=
  match p with
  | Ret a => f a
  | Update g k => Update g (bind k f)
  | Await r k => Await r (λ o, bind (k o) f)
  end.

(** The result of a run: the value, the final state and, for every request
    issued, the state at that moment and the request, in order. *)
Record Run (A : Type) : Type := {
  value : A;
  final : St;
  log : list (St * Req);
}.
#[global] Arguments value {A} r.
#[global] Arguments final {A} r.
#[global] Arguments log {A} r.

Fixpoint run {A : Type} (world : ∀ r, Out r) (p : t A) (s : St) : Run A :=
  match p with
  | Ret a => {| value := a; final := s; log := [] |}
  | Update f k => run world k (f s)
  | Await r k =>
      let rest := run world (k (world r)) s in
      {| value := value rest; final := final rest; log := (s, r) :: log rest |}
  end.

(** The requests issued, in order. *)
Definition requests {A : Type} (r : Run A) : list Req := (log r).*2.

End Tree.
#[global] Arguments t St Req Out A : clear implicits.
End Proc.

(** Sequencing is written with the usual monadic notations [x ← m; k] and
    [m;; k]. *)
#[global] Instance proc_ret {St Req Out} : MRet (Proc.t St Req Out) :=
  λ A a, Proc.Ret a.
#[global] Instance proc_bind {St Req Out} : MBind (Proc.t St Req Out) :=
  λ A B f p, Proc.bind p f.

(* ===================================================================== *)
(** * The JSON shapes exchanged between the panels and the server *)
(* ===================================================================== *)

Module Wire.
Import JS.

(** One transcript entry, [{role, content}]; an absent field is
    [JUndefined]. *)
Record Message : Type := {
  role : value;
  content : value;
}.

(** One normalized search result, [{title, link, snippet}]. *)
Record SearchResult : Type := {
  title : string;
  link : string;
  snippet : string;
}.

(** A parsed JSON document. *)
#[warnings="-register-all"]
Inductive Json : Type :=
| JsNull
| JsBool (b : bool)
| JsNum (z : Z)
| JsStr (s : string)
| JsArr (l : list Json)
| JsObj (fields : list (string * Json)).

End Wire.

(* ===================================================================== *)
(** * Backend router and adapters: [src/api/server.js] *)
(* ===================================================================== *)

Module Server.
Import JS.

(** ** Configuration *)

(** [process.env] *)
Record Env : Type := {
  GEMINI_API_KEY : option string;
}.

(** What the sources leave to the JavaScript engine: the message of the
    [TypeError] raised when a property is read from [null] or [undefined]
    ([null_read_message base property], [base] being one of the two
    words), and [JSON.parse]. *)
Record Engine : Type := {
  null_read_message : string → string → string;
  JSON_parse : string → Thrown + Wire.Json;
}.

(** [!!process.env.GEMINI_API_KEY] *)
Definition hasGeminiKey (env : Env) : bool :=
  match GEMINI_API_KEY env with
  | Some k => negb (k =? "")
  | None => false
  end.

(** [hasGeminiKey ? process.env.GEMINI_API_KEY.trim() : null] *)
Definition geminiApiKey (env : Env) : option string :=
  if hasGeminiKey env then trim <$> GEMINI_API_KEY env else None.

(** The object made by [new GoogleGenerativeAI(key)]. *)
Record GoogleGenerativeAI : Type := { apiKey : string }.

(** [hasGeminiKey ? new GoogleGenerativeAI(geminiApiKey) : null] *)
Definition genAI (env : Env) : option GoogleGenerativeAI :=
  if hasGeminiKey env then Build_GoogleGenerativeAI <$> geminiApiKey env else None.

Definition STUDY_CHAT_PROMPT : string :=
  "You are a helpful AI study partner. Provide clear, educational explanations to help students learn. Be concise but thorough.".

Definition QUIZ_INSTRUCTIONS : string :=
  "You are a quiz generator. Generate exactly 5 multiple-choice questions with 4 options each. Respond ONLY with valid JSON in this exact format: {"
  +:+ DQ +:+ "questions" +:+ DQ +:+ ": [{" +:+ DQ +:+ "question" +:+ DQ +:+ ": "
  +:+ DQ +:+ "..." +:+ DQ +:+ ", " +:+ DQ +:+ "options" +:+ DQ +:+ ": ["
  +:+ DQ +:+ "A" +:+ DQ +:+ ", " +:+ DQ +:+ "B" +:+ DQ +:+ ", " +:+ DQ +:+ "C" +:+ DQ
  +:+ ", " +:+ DQ +:+ "D" +:+ DQ +:+ "], " +:+ DQ +:+ "correctAnswer" +:+ DQ
  +:+ ": 0}]} where correctAnswer is the index (0-3) of the correct option.".

(** ** The conversation sent to the generative service *)

Record Part : Type := { text : value }.

Record Turn : Type := {
  role : string;
  parts : list Part;
}.

(** The callback of [messages.forEach]: one call on [message], with the
    array [conversation] built so far. *)
Definition push_message (conversation : list Turn)
           (message : option Wire.Message) : list Turn :=
  match message with
  | None => conversation
  | Some m =>
      if negb (truthy (Wire.content m)) then conversation
      else
        let role :=
          if strict_eq (Wire.role m) (JStr "assistant") then "model" else "user" in
        conversation ++ [{| role := role; parts := [{| text := Wire.content m |}] |}]
  end.

(** [buildConversation(messages, includePrompt = true)] *)
Definition buildConversation (messages : list (option Wire.Message))
           (includePrompt : bool) : list Turn :=
  let conversation := [] in
  let conversation :=
    if includePrompt
    then conversation ++ [{| role := "user"; parts := [{| text := JStr STUDY_CHAT_PROMPT |}] |}]
    else conversation in
  fold_left push_message messages conversation.

(** ** Error classification *)

(** [createErrorMessage(error)] *)
Definition createErrorMessage (error : Thrown) : string :=
  let errorMessage := or_default (message error) "Gemini API request failed." in
  let lower := toLowerCase errorMessage in
  if includes lower "permission" || includes lower "unauthorized" || includes lower "api key"
  then "Invalid Gemini API key. Please update GEMINI_API_KEY in your .env file from https://aistudio.google.com/app/apikey"
  else if includes lower "quota" || includes lower "billing" || includes lower "exceeded"
  then "Gemini API quota exceeded. Please review your Google AI Studio usage and billing."
  else if includes lower "rate limit"
  then "Gemini rate limit reached. Please wait a moment and try again."
  else errorMessage.

(** ** The outside world of the server *)

Inductive GenerateRequest : Type :=
| Contents (contents : list Turn)
| Prompt (prompt : string).

(** The argument of [getGenerativeModel]. *)
Record ModelParams : Type := {
  model : string;
  responseMimeType : option string;
}.

Inductive Upstream : Type :=
| GenerateContent (client : GoogleGenerativeAI) (params : ModelParams)
                  (request : GenerateRequest)
| FetchUrl (base : string) (searchParams : list (string * string)).

(** [await model.generateContent(..)] followed by [result.response.text()]. *)
Inductive Generated : Type :=
| GeneratedText (t : string)
| GenerateThrows (e : Thrown).

(** One element of [data.query.search]. *)
Record Hit : Type := {
  hit_title : option string;
  hit_snippet : option string;
}.

(** The parts of the search body that the handler reads:
    [data?.error?.message] and [data?.query?.search]. *)
Record SearchData : Type := {
  error_message : option string;
  query_search : option (list Hit);
}.

(** [await fetch(url)] followed by [await response.json()]. *)
Inductive Fetched : Type :=
| FetchRejects (e : Thrown)
| FetchResponds (ok : bool) (json : Thrown + SearchData).

Definition Outcome (u : Upstream) : Type :=
  match u with
  | GenerateContent _ _ _ => Generated
  | FetchUrl _ _ => Fetched
  end.

(** ** Responses *)

Inductive Body : Type :=
| ErrorBody (error : string) (details : option string)
| ChatBody (response : string)
| SearchBody (results : list Wire.SearchResult)
| QuizBody (quizData : Wire.Json).

Record Response : Type := {
  status : nat;
  body : Body;
}.

Definition Handler : Type := Proc.t unit Upstream Outcome Response.

(** ** [POST /api/chat] *)

(** [req.body], with [messages] absent or an array. *)
Record ChatRequest : Type := {
  messages : option (list (option Wire.Message));
}.

(** The [try] block; [inl] is a thrown value. *)
Definition chat_try (eng : Engine) (env : Env) (req : ChatRequest)
  : Proc.t unit Upstream Outcome (Thrown + string) :=
  match genAI env with
  | None => mret (inl (Error (Some (null_read_message eng "null" "getGenerativeModel"))))
  | Some client =>
      let chatModel := {| model := "gemini-1.5-pro-latest"; responseMimeType := None |} in
      match messages req with
      | None => mret (inl (Error (Some (null_read_message eng "undefined" "forEach"))))
      | Some ms =>
          Proc.Await (GenerateContent client chatModel (Contents (buildConversation ms true)))
            (λ result : Generated,
               match result with
               | GenerateThrows e => mret (inl e)
               | GeneratedText t => mret (inr t)
               end)
      end
  end.

Definition chat (eng : Engine) (env : Env) (req : ChatRequest) : Handler :=
  if negb (hasGeminiKey env) then
    mret {| status := 503;
            body := ErrorBody "Gemini is not configured"
                      (Some "Add GEMINI_API_KEY to your .env to enable chat.") |}
  else
    r ← chat_try eng env req;
    match r with
    | inr t => mret {| status := 200; body := ChatBody t |}
    | inl error =>
        let userFriendlyMessage := createErrorMessage error in
        mret {| status := 500;
                body := ErrorBody "Failed to get response from Gemini"
                          (Some userFriendlyMessage) |}
    end.

(** ** [GET /api/search] *)

Definition WIKI_ARTICLE : string := "https://en.wikipedia.org/wiki/".

(** The callback of [data.query.search.map]; reading [replace] from an
    absent title throws. *)
Definition normalize (eng : Engine) (item : Hit) : Thrown + Wire.SearchResult :=
  match hit_title item with
  | None => inl (Error (Some (null_read_message eng "undefined" "replace")))
  | Some t =>
      inr {| Wire.title := t;
             Wire.link := WIKI_ARTICLE +:+ encodeURIComponent (replace re_spaces "_" t);
             Wire.snippet :=
               match hit_snippet item with
               | Some sn => if sn =? "" then "" else replace re_span_tag "" sn
               | None => ""
               end |}
  end.

(** [search.map(normalize)], stopping at the first throw. *)
Fixpoint normalize_all (eng : Engine) (items : list Hit)
  : Thrown + list Wire.SearchResult :=
  match items with
  | [] => inr []
  | item :: rest =>
      match normalize eng item with
      | inl e => inl e
      | inr r =>
          match normalize_all eng rest with
          | inl e => inl e
          | inr rs => inr (r :: rs)
          end
      end
  end.

Definition search_try (eng : Engine) (query : string)
  : Proc.t unit Upstream Outcome (Thrown + list Wire.SearchResult) :=
  Proc.Await
    (FetchUrl "https://en.wikipedia.org/w/api.php"
       [("action", "query"); ("list", "search"); ("srsearch", query); ("format", "json")])
    (λ fetched : Fetched,
       match fetched with
       | FetchRejects e => mret (inl e)
       | FetchResponds _ (inl e) => mret (inl e)
       | FetchResponds ok (inr data) =>
           if negb ok then
             mret (inl (Error (Some (or_default (error_message data) "Search request failed"))))
           else
             match query_search data with
             | None => mret (inr [])
             | Some items => mret (normalize_all eng items)
             end
       end).

(** [q] is [req.query.q]. *)
Definition search (eng : Engine) (env : Env) (q : option string) : Handler :=
  let query := trim (or_default q "") in
  if query =? "" then
    mret {| status := 400; body := ErrorBody "Missing query parameter q" None |}
  else if negb (hasGeminiKey env) then
    mret {| status := 503;
            body := ErrorBody "Gemini is not configured"
                      (Some "Add GEMINI_API_KEY to your .env to enable quiz generation.") |}
  else
    r ← search_try eng query;
    match r with
    | inr results => mret {| status := 200; body := SearchBody results |}
    | inl error =>
        mret {| status := 500;
                body := ErrorBody "Failed to perform search"
                          (Some (or_default (message error) "Search request failed")) |}
    end.

(** ** [POST /api/generate-quiz] *)

(** [topic] is [req.body.topic]. *)
Definition generate_quiz_try (eng : Engine) (env : Env) (topic : option string)
  : Proc.t unit Upstream Outcome (Thrown + Wire.Json) :=
  match genAI env with
  | None => mret (inl (Error (Some (null_read_message eng "null" "getGenerativeModel"))))
  | Some client =>
      let quizModel :=
        {| model := "gemini-1.5-pro-latest";
           responseMimeType := Some "application/json" |} in
      let quizPrompt :=
        QUIZ_INSTRUCTIONS +:+ LF +:+ LF +:+ "Topic: " +:+ template topic
        +:+ LF +:+ LF +:+ "Remember: respond with raw JSON only." in
      Proc.Await (GenerateContent client quizModel (Prompt quizPrompt))
        (λ result : Generated,
           match result with
           | GenerateThrows e => mret (inl e)
           | GeneratedText t => mret (JSON_parse eng t)
           end)
  end.

Definition generate_quiz (eng : Engine) (env : Env) (topic : option string) : Handler :=
  r ← generate_quiz_try eng env topic;
  match r with
  | inr quizData => mret {| status := 200; body := QuizBody quizData |}
  | inl error =>
      let userFriendlyMessage := createErrorMessage error in
      mret {| status := 500;
              body := ErrorBody "Failed to generate quiz" (Some userFriendlyMessage) |}
  end.

(** A run of a handler: the server keeps no state between requests. *)
Definition serve (world : ∀ u, Outcome u) (h : Handler) : Proc.Run Response :=
  Proc.run world h tt.

(** ** The classifier as the specification words it *)

(** One rule: the substrings that trigger it and the guidance returned. *)
Record Rule : Type := {
  triggers : list string;
  guidance : string;
}.

Definition invalid_credential_guidance : string :=
  "Invalid Gemini API key. Please update GEMINI_API_KEY in your .env file from https://aistudio.google.com/app/apikey".
Definition quota_exceeded_guidance : string :=
  "Gemini API quota exceeded. Please review your Google AI Studio usage and billing.".
Definition rate_limit_guidance : string :=
  "Gemini rate limit reached. Please wait a moment and try again.".

Definition credential_rule : Rule :=
  {| triggers := ["permission"; "unauthorized"; "api key"];
     guidance := invalid_credential_guidance |}.
Definition quota_rule : Rule :=
  {| triggers := ["quota"; "billing"; "exceeded"];
     guidance := quota_exceeded_guidance |}.
Definition rate_rule : Rule :=
  {| triggers := ["rate limit"];
     guidance := rate_limit_guidance |}.

Definition rules : list Rule := [credential_rule; quota_rule; rate_rule].

Definition fires (lower : string) (r : Rule) : bool :=
  existsb (includes lower) (triggers r).

(** Rules in order, first match wins, [raw] when none matches. *)
Definition classify (raw : string) : string :=
  match find (fires (toLowerCase raw)) rules with
  | Some r => guidance r
  | None => raw
  end.

(** ** The conversation as the specification words it *)

(** The fixed instruction as a user-role turn. *)
Definition prompt_turn : Turn :=
  {| role := "user"; parts := [{| text := JStr STUDY_CHAT_PROMPT |}] |}.

(** The turn of one transcript entry: [assistant] becomes the model role,
    every other role the user role. *)
Definition turn_of (m : Wire.Message) : Turn :=
  {| role := if decide (Wire.role m = JStr "assistant") then "model" else "user";
     parts := [{| text := Wire.content m |}] |}.

(** The content is missing, [null] or the empty string. *)
Definition no_content (m : Wire.Message) : Prop :=
  Wire.content m = JUndefined ∨ Wire.content m = JNull ∨ Wire.content m = JStr "".

(** The entries that are objects with a truthy content, in order. *)
Fixpoint kept (messages : list (option Wire.Message)) : list Wire.Message :=
  match messages with
  | [] => []
  | None :: rest => kept rest
  | Some m :: rest => if truthy (Wire.content m) then m :: kept rest else kept rest
  end.

(** The model asked by the chat endpoint. *)
Definition chat_model : ModelParams :=
  {| model := "gemini-1.5-pro-latest"; responseMimeType := None |}.

(** ** A sample deployment *)

(** The wording of V8, the engine of Node.js; the parser is not exercised. *)
Definition v8 : Engine :=
  {| null_read_message := λ base property,
       "Cannot read properties of " +:+ base +:+ " (reading '" +:+ property +:+ "')";
     JSON_parse := λ _, inl (Error (Some "Unexpected end of JSON input")) |}.

(** An engine whose [JSON.parse] reads the text of the service as [d]. *)
Definition parsing (d : Wire.Json) : Engine :=
  {| null_read_message := null_read_message v8; JSON_parse := λ _, inr d |}.

Definition configured : Env := {| GEMINI_API_KEY := Some "key" |}.

(** An outside world where the search service finds nothing. *)
Definition no_hits : ∀ u, Outcome u :=
  λ u, match u with
       | GenerateContent _ _ _ => GenerateThrows (Error None)
       | FetchUrl _ _ =>
           FetchResponds true (inr {| error_message := None; query_search := Some [] |})
       end.

(** ** The unused classifier of search errors *)

(** [buildSearchErrorMessage(error)]; no handler calls it. *)
Definition buildSearchErrorMessage (error : Thrown) : string :=
  let message := or_default (JS.message error) "Search request failed." in
  let lower := toLowerCase message in
  if includes lower "permission" || includes lower "api key"
  then "Invalid Google Search API credentials. Please set GOOGLE_SEARCH_API_KEY and GOOGLE_SEARCH_CX in your .env."
  else if includes lower "daily" || includes lower "limit" || includes lower "quota"
  then "Search quota exceeded. Check your Google Programmable Search quotas."
  else message.

(** ** Names for the upstream calls of the handlers *)

(** The model asked by the quiz endpoint. *)
Definition quiz_model : ModelParams :=
  {| model := "gemini-1.5-pro-latest"; responseMimeType := Some "application/json" |}.

(** The prompt of the quiz endpoint for [req.body.topic]. *)
Definition quiz_prompt (topic : option string) : string :=
  QUIZ_INSTRUCTIONS +:+ LF +:+ LF +:+ "Topic: " +:+ template topic
  +:+ LF +:+ LF +:+ "Remember: respond with raw JSON only.".

(** The search request for the trimmed query. *)
Definition wikipedia_search (query : string) : Upstream :=
  FetchUrl "https://en.wikipedia.org/w/api.php"
    [("action", "query"); ("list", "search"); ("srsearch", query); ("format", "json")].

(** An outside world where the generative service answers [t]. *)
Definition replying (t : string) : ∀ u, Outcome u :=
  λ u, match u with
       | GenerateContent _ _ _ => GeneratedText t
       | FetchUrl _ _ =>
           FetchResponds true (inr {| error_message := None; query_search := Some [] |})
       end.

(** An outside world that cannot be reached. *)
Definition unreachable : ∀ u, Outcome u :=
  λ u, match u with
       | GenerateContent _ _ _ => GenerateThrows (Error (Some "fetch failed"))
       | FetchUrl _ _ => FetchRejects (Error (Some "fetch failed"))
       end.

(** A turn as the generative service accepts it: a user or model role and
    one part with a truthy text. *)
Definition sendable (t : Turn) : Prop :=
  (role t = "user" ∨ role t = "model")
  ∧ ∃ v, parts t = [{| text := v |}] ∧ truthy v = true.

(** An error answer: the status is not 200 and the body is an error with
    a non-empty text and, except for 400, non-empty details. *)
Definition error_answer (r : Response) : Prop :=
  status r ≠ 200%nat
  ∧ ∃ e d, body r = ErrorBody e d ∧ e ≠ ""
           ∧ (status r ≠ 400%nat → ∃ x, d = Some x ∧ x ≠ "").

End Server.

(* ===================================================================== *)
(** * Titles and snippets of the search service *)
(* ===================================================================== *)

Module Markup.
Import JS.
(** A snippet is plain text with highlighting tags around the matches. *)
Inductive Piece : Type :=
| Plain (s : string)
| OpenSpan (attributes : string)
| CloseSpan.

Definition render_piece (p : Piece) : string :=
  match p with
  | Plain s => s
  | OpenSpan attributes => "<span" +:+ attributes +:+ ">"
  | CloseSpan => "</span>"
  end.

Fixpoint render (ps : list Piece) : string :=
  match ps with
  | [] => ""
  | p :: rest => render_piece p +:+ render rest
  end.

(** The snippet without its markup. *)
Fixpoint plain_text (ps : list Piece) : string :=
  match ps with
  | [] => ""
  | Plain s :: rest => s +:+ plain_text rest
  | _ :: rest => plain_text rest
  end.

(** [c] does not occur in [s]. *)
Fixpoint lacks (c : ascii) (s : string) : bool :=
  match s with
  | "" => true
  | String d s' => negb (Ascii.eqb d c) && lacks c s'
  end.

(** Plain text has no [<] (the service escapes it) and the attributes of a
    tag have no [>]. *)
Definition well_formed (p : Piece) : Prop :=
  match p with
  | Plain s => lacks "<" s = true
  | OpenSpan attributes => lacks ">" attributes = true
  | CloseSpan => True
  end.

(** No code unit is white space. *)
Fixpoint solid (s : string) : bool :=
  match s with
  | "" => true
  | String c s' => negb (isWhiteSpace c) && solid s'
  end.

(** A title: a first word, then gaps of white space each followed by a
    word. *)
Fixpoint spaced (first : string) (rest : list (string * string)) : string :=
  match rest with
  | [] => first
  | (gap, word) :: more => first +:+ gap +:+ spaced word more
  end.

Definition gap_word (gw : string * string) : Prop :=
  gw.1 ≠ "" ∧ blank gw.1 = true ∧ gw.2 ≠ "" ∧ solid gw.2 = true.

Definition title_words (first : string) (rest : list (string * string)) : Prop :=
  solid first = true ∧ Forall gap_word rest.

(** Only unreserved characters and [%]. *)
Fixpoint url_safe (s : string) : bool :=
  match s with
  | "" => true
  | String c s' => (isUnreserved c || Ascii.eqb c "%") && url_safe s'
  end.

(** Only unreserved characters: a word that needs no escape. *)
Fixpoint unreserved (s : string) : bool :=
  match s with
  | "" => true
  | String c s' => isUnreserved c && unreserved s'
  end.

(** ** Reading a percent-encoded path segment (RFC 3986, UTF-8)

    This is the reader of a link, written from the standard and not from
    [encodeURIComponent]: a code unit other than [%] stands for itself,
    [%XX] with two hexadecimal digits of either case is the octet [XX]; an
    octet below 128 is that code unit, a lead octet [C2] or [C3] followed
    by the escape of a continuation octet [80..BF] is the code unit
    [128..255] they encode.  Everything else is not the encoding of a
    string of code units up to U+00FF. *)

Definition hexValue (c : ascii) : option N :=
  let n := code c in
  if (48 <=? n)%N && (n <=? 57)%N then Some (n - 48)%N
  else if (65 <=? n)%N && (n <=? 70)%N then Some (n - 55)%N
  else if (97 <=? n)%N && (n <=? 102)%N then Some (n - 87)%N
  else None.

Definition octet (high low : ascii) : option N :=
  match hexValue high, hexValue low with
  | Some h, Some l => Some (16 * h + l)%N
  | _, _ => None
  end.

Fixpoint percent_decode (s : string) : option string :=
  match s with
  | "" => Some ""
  | String c rest =>
      if Ascii.eqb c "%" then
        match rest with
        | String h (String l rest1) =>
            match octet h l with
            | None => None
            | Some b =>
                if (b <? 128)%N
                then option_map (String (ascii_of_N b)) (percent_decode rest1)
                else if (194 <=? b)%N && (b <=? 195)%N then
                  match rest1 with
                  | String p (String h2 (String l2 rest2)) =>
                      if Ascii.eqb p "%" then
                        match octet h2 l2 with
                        | Some b2 =>
                            if (128 <=? b2)%N && (b2 <=? 191)%N
                            then option_map
                                   (String (ascii_of_N ((b - 192) * 64 + (b2 - 128))))
                                   (percent_decode rest2)
                            else None
                        | None => None
                        end
                      else None
                  | _ => None
                  end
                else None
            end
        | _ => None
        end
      else option_map (String c) (percent_decode rest)
  end.

(** The code unit U+00E9 (e with acute accent). *)
Definition E_ACUTE : string := String (ascii_of_nat 233) "".

(** A hit as the search service sends it. *)
Definition sample_pieces : list Piece :=
  [ Plain "The "; OpenSpan (" class=" +:+ DQ +:+ "searchmatch" +:+ DQ); Plain "cat";
    CloseSpan; Plain " is a small mammal" ].

End Markup.

(* ===================================================================== *)
(** * Chat panel: [src/components/StudyChat.jsx] *)
(* ===================================================================== *)

Module StudyChat.
Import JS.

(** The [useState] cells of the component. *)
Record State : Type := {
  messages : list Wire.Message;
  input : string;
  isLoading : bool;
}.

Definition greeting : Wire.Message :=
  {| Wire.role := JStr "assistant";
     Wire.content :=
       JStr "Hello! I'm your AI Study Partner. Ask me any question and I'll help you learn!" |}.

Definition initial : State :=
  {| messages := [greeting]; input := ""; isLoading := false |}.

(** The three setters; [setMessages] is always called with an updater. *)
Definition setMessages (f : list Wire.Message → list Wire.Message) (st : State) : State :=
  {| messages := f (messages st); input := input st; isLoading := isLoading st |}.

Definition setInput (v : string) (st : State) : State :=
  {| messages := messages st; input := v; isLoading := isLoading st |}.

Definition setIsLoading (v : bool) (st : State) : State :=
  {| messages := messages st; input := input st; isLoading := v |}.

(** ** The network as the panel sees it *)

(** The arguments of [fetch]: the URL, the method and, for a POST, the
    [messages] array that is serialised as the body. *)
Record Request : Type := {
  url : string;
  method : string;
  body : option (list Wire.Message);
}.

(** The fields that the panel reads from a response body; an absent field
    is [None] or [JUndefined]. *)
Record Payload : Type := {
  details : option string;
  error : option string;
  results : option (list Wire.SearchResult);
  response : value;
}.

(** [{}] *)
Definition empty_payload : Payload :=
  {| details := None; error := None; results := None; response := JUndefined |}.

(** [await fetch(..)] with [response.ok], and [await response.json()]. *)
Inductive Fetched : Type :=
| FetchRejects (e : Thrown)
| FetchResponds (ok : bool) (json : Thrown + Payload).

(** Every request is answered by a [Fetched]. *)
Definition Reply (r : Request) : Type := Fetched.

Abbreviation Handler := (Proc.t State Request Reply).

Definition assistant (content : value) : Wire.Message :=
  {| Wire.role := JStr "assistant"; Wire.content := content |}.

Definition user (content : string) : Wire.Message :=
  {| Wire.role := JStr "user"; Wire.content := JStr content |}.

(** [`${idx + 1}. ${r.title}\n${r.link}\n${r.snippet || ''}`] *)
Definition format_result (idx : nat) (r : Wire.SearchResult) : string :=
  pretty (idx + 1) +:+ ". " +:+ Wire.title r +:+ LF +:+ Wire.link r +:+ LF
  +:+ or_default (Some (Wire.snippet r)) "".

(** [data.results?.length ? data.results.map(..).join('\n\n') : 'No results found.'] *)
Definition format_results (results : option (list Wire.SearchResult)) : string :=
  match results with
  | Some [] | None => "No results found."
  | Some rs => join (LF +:+ LF) (imap format_result rs)
  end.

(** The search branch of the [try] block; [inl] is a thrown value. *)
Definition search_branch (searchQuery : string) : Handler (Thrown + unit) :=
  if searchQuery =? "" then
    mret (inl (Error (Some "Please provide a search query after /search")))
  else
    Proc.Await
      {| url := "/api/search?q=" +:+ encodeURIComponent searchQuery;
         method := "GET"; body := None |}
      (λ fetched : Fetched,
         match fetched with
         | FetchRejects e => mret (inl e)
         | FetchResponds false json =>
             let errorData := match json with inr d => d | inl _ => empty_payload end in
             mret (inl (Error (Some
               (or_default (details errorData)
                  (or_default (error errorData) "Search failed")))))
         | FetchResponds true (inl e) => mret (inl e)
         | FetchResponds true (inr data) =>
             let formatted := format_results (results data) in
             Proc.Update
               (setMessages (λ prev, prev ++
                  [assistant (JStr ("Here are the top results for " +:+ DQ +:+ searchQuery
                                    +:+ DQ +:+ ":" +:+ LF +:+ LF +:+ formatted))]))
               (mret (inr tt))
         end).

(** The chat branch of the [try] block; [messages] is the array captured
    by the handler when it was created. *)
Definition chat_branch (messages : list Wire.Message) (userMessage : Wire.Message)
  : Handler (Thrown + unit) :=
  Proc.Await
    {| url := "/api/chat"; method := "POST";
       body := Some (map (λ msg, {| Wire.role := Wire.role msg;
                                    Wire.content := Wire.content msg |})
                         (messages ++ [userMessage])) |}
    (λ fetched : Fetched,
       match fetched with
       | FetchRejects e => mret (inl e)
       | FetchResponds false json =>
           let errorData := match json with inr d => d | inl _ => empty_payload end in
           mret (inl (Error (Some
             (or_default (details errorData)
                (or_default (error errorData) "Failed to get response")))))
       | FetchResponds true (inl e) => mret (inl e)
       | FetchResponds true (inr data) =>
           Proc.Update (setMessages (λ prev, prev ++ [assistant (response data)]))
             (mret (inr tt))
       end).

(** [handleSubmit(e)], created in a render with state [st]. *)
Definition handleSubmit (st : State) : Handler unit :=
  if (trim (input st) =? "") || isLoading st then mret tt
  else
    let userMessage := user (input st) in
    let isSearch := startsWith (toLowerCase (trim (input st))) "/search " in
    let searchQuery := if isSearch then trim (slice (trim (input st)) 8) else "" in
    Proc.Update (setMessages (λ prev, prev ++ [userMessage])) (
    Proc.Update (setInput "") (
    Proc.Update (setIsLoading true) (
    r ← (if isSearch then search_branch searchQuery
         else chat_branch (messages st) userMessage);
    match r with
    | inr _ => mret tt
    | inl error =>
        Proc.Update
          (setMessages (λ prev, prev ++
             [assistant (JStr ("Sorry, I encountered an error: " +:+ template (message error)
                               +:+ ". Please check your Gemini API key and try again."))]))
          (mret tt)
    end;;
    Proc.Update (setIsLoading false) (mret tt)))).

(** The panel submits [handleSubmit] of its current state. *)
Definition submit (network : ∀ r, Reply r) (st : State) : Proc.Run unit :=
  Proc.run network (handleSubmit st) st.

(** ** The response of the server as the panel receives it *)

Definition payload_of (b : Server.Body) : Payload :=
  match b with
  | Server.ErrorBody e d =>
      {| details := d; error := Some e; results := None; response := JUndefined |}
  | Server.ChatBody t =>
      {| details := None; error := None; results := None; response := JStr t |}
  | Server.SearchBody rs =>
      {| details := None; error := None; results := Some rs; response := JUndefined |}
  | Server.QuizBody _ => empty_payload
  end.

(** [response.ok] is a status in 200..299. *)
Definition receive (r : Server.Response) : Fetched :=
  FetchResponds ((200 <=? Server.status r)%nat && (Server.status r <? 300)%nat)
                (inr (payload_of (Server.body r))).

(** ** A sample network *)

(** A network on which every request succeeds with the reply [text]. *)
Definition answering (text : string) : ∀ r, Reply r :=
  λ _, FetchResponds true
         (inr {| details := None; error := None; results := None; response := JStr text |}).

(** ** The panel in front of the chat endpoint *)

(** The network when every request reaches [POST /api/chat] of a server
    with environment [env]: the body of the request is the [messages]
    array. *)
Definition chat_backend (eng : Server.Engine) (env : Server.Env)
           (world : ∀ u, Server.Outcome u) : ∀ r, Reply r :=
  λ r, receive (Proc.value (Server.serve world
         (Server.chat eng env
            {| Server.messages :=
                 match body r with
                 | Some ms => Some (map Some ms)
                 | None => None
                 end |}))).

(** [isSearch] and [searchQuery] of [handleSubmit]. *)
Definition isSearch (input : string) : bool :=
  startsWith (toLowerCase (trim input)) "/search ".

Definition searchQuery (input : string) : string :=
  if isSearch input then trim (slice (trim input) 8) else "".

(** The entry appended by the [catch] block. *)
Definition apology (message : string) : Wire.Message :=
  assistant (JStr ("Sorry, I encountered an error: " +:+ message
                   +:+ ". Please check your Gemini API key and try again.")).

(** The request of a submission. *)
Definition request_of (st : State) : Request :=
  if isSearch (input st)
  then {| url := "/api/search?q=" +:+ encodeURIComponent (searchQuery (input st));
          method := "GET"; body := None |}
  else {| url := "/api/chat"; method := "POST";
          body := Some (messages st ++ [user (input st)]) |}.

(** [errorData.details || errorData.error || fallback], where [errorData]
    is the body of the response, or [{}] when it is not JSON. *)
Definition failure_text (json : Thrown + Payload) (fallback : string) : string :=
  let errorData := match json with inr d => d | inl _ => empty_payload end in
  or_default (details errorData) (or_default (error errorData) fallback).

(** The assistant entry that ends a submission, by the outcome of its
    request: on the chat branch and on the search branch for [query]. *)
Definition chat_entry (fetched : Fetched) : Wire.Message :=
  match fetched with
  | FetchRejects e => apology (template (message e))
  | FetchResponds false json => apology (failure_text json "Failed to get response")
  | FetchResponds true (inl e) => apology (template (message e))
  | FetchResponds true (inr data) => assistant (response data)
  end.

Definition search_entry (query : string) (fetched : Fetched) : Wire.Message :=
  match fetched with
  | FetchRejects e => apology (template (message e))
  | FetchResponds false json => apology (failure_text json "Search failed")
  | FetchResponds true (inl e) => apology (template (message e))
  | FetchResponds true (inr data) =>
      assistant (JStr ("Here are the top results for " +:+ DQ +:+ query +:+ DQ +:+ ":"
                       +:+ LF +:+ LF +:+ format_results (results data)))
  end.

(** A network that is down. *)
Definition offline : ∀ r, Reply r :=
  λ _, FetchRejects (Error (Some "Failed to fetch")).

End StudyChat.

(* ===================================================================== *)
(** * Quiz panel: [src/components/QuizGenerator.jsx] *)
(* ===================================================================== *)

Module QuizGenerator.
Import JS.

(** One element of [data.questions].  [correctAnswer] is whatever the
    generated JSON carries, so it is a scalar, not an index. *)
Record Question : Type := {
  question : string;
  options : list string;
  correctAnswer : value;
}.

(** The [useState] cells of the component.  [answers] is the object keyed
    by question index; its values are the option indices passed by the
    radio buttons. *)
Record State : Type := {
  topic : string;
  questions : option (list Question);
  answers : gmap nat nat;
  submitted : bool;
  score : option nat;
  isGenerating : bool;
}.

Definition initial : State :=
  {| topic := ""; questions := None; answers := ∅; submitted := false;
     score := None; isGenerating := false |}.

(** [answers[index]] *)
Definition answer_at (a : gmap nat nat) (index : nat) : value :=
  match a !! index with
  | Some o => JNum (Z.of_nat o)
  | None => JUndefined
  end.

(** [handleAnswerChange(questionIndex, answerIndex)] *)
Definition handleAnswerChange (st : State) (questionIndex answerIndex : nat) : State :=
  if submitted st then st
  else
    {| topic := topic st; questions := questions st;
       answers := <[questionIndex := answerIndex]> (answers st);
       submitted := submitted st; score := score st;
       isGenerating := isGenerating st |}.

(** The body of [questions.forEach((q, index) => ...)] with the mutable
    [correctCount] threaded through. *)
Fixpoint forEach_count (a : gmap nat nat) (qs : list Question)
         (index correctCount : nat) : nat :=
  match qs with
  | [] => correctCount
  | q :: rest =>
      forEach_count a rest (S index)
        (if strict_eq (answer_at a index) (correctAnswer q)
         then S correctCount else correctCount)
  end.

(** [handleSubmit()] *)
Definition handleSubmit (st : State) : State :=
  match questions st with
  | None => st
  | Some qs =>
      if submitted st then st
      else
        let correctCount := forEach_count (answers st) qs 0 0 in
        {| topic := topic st; questions := questions st;
           answers := answers st;
           submitted := true; score := Some correctCount;
           isGenerating := isGenerating st |}
  end.

(** User actions available on a generated quiz. *)
Inductive Action : Type :=
| Select (questionIndex answerIndex : nat)
| Submit.

Definition step (st : State) (a : Action) : State :=
  match a with
  | Select qi ai => handleAnswerChange st qi ai
  | Submit => handleSubmit st
  end.

(** ** The score as the specification words it *)

(** The question has a correct-answer index. *)
Definition has_index (q : Question) : Prop :=
  ∃ n : nat, correctAnswer q = JNum (Z.of_nat n).

(** [A[i]] is defined and equals [Q[i].correctAnswer]. *)
Definition is_hit (qs : list Question) (ia : nat * nat) : Prop :=
  correctAnswer <$> qs !! ia.1 = Some (JNum (Z.of_nat ia.2)).

#[global] Instance is_hit_dec qs ia : Decision (is_hit qs ia).
Proof. unfold is_hit. apply _. Defined.

(** The entries of the answer set that count. *)
Definition hits (qs : list Question) (a : gmap nat nat) : gmap nat nat :=
  filter (is_hit qs) a.

(** [questions[index - from]] exists and its answer is [v]: the entries
    counted by the loop once it has reached index [from]. *)
Definition hit_from (from : nat) (qs : list Question) (ia : nat * nat) : Prop :=
  (from ≤ ia.1)%nat ∧ correctAnswer <$> qs !! (ia.1 - from) = Some (JNum (Z.of_nat ia.2)).

#[global] Instance hit_from_dec from qs ia : Decision (hit_from from qs ia).
Proof. unfold hit_from. apply _. Defined.

(** ** A sample quiz *)

Definition sample_question (text : string) (correct : Z) : Question :=
  {| question := text; options := ["A"; "B"; "C"; "D"]; correctAnswer := JNum correct |}.

Definition sample_quiz : list Question :=
  [ sample_question "Q1" 2; sample_question "Q2" 0; sample_question "Q3" 3;
    sample_question "Q4" 1; sample_question "Q5" 1 ].

(** The panel once [sample_quiz] has been generated. *)
Definition sample_ready : State :=
  {| topic := "Photosynthesis"; questions := Some sample_quiz; answers := ∅;
     submitted := false; score := None; isGenerating := false |}.

(** Two right answers, one wrong answer, and a selection outside the quiz. *)
Definition sample_answered : State :=
  foldl step sample_ready [Select 0 2; Select 1 0; Select 2 1; Select 7 1].

(** ** Generating a quiz *)

Definition setIsGenerating (v : bool) (st : State) : State :=
  {| topic := topic st; questions := questions st; answers := answers st;
     submitted := submitted st; score := score st; isGenerating := v |}.

Definition setQuestions (v : option (list Question)) (st : State) : State :=
  {| topic := topic st; questions := v; answers := answers st;
     submitted := submitted st; score := score st; isGenerating := isGenerating st |}.

Definition setAnswers (v : gmap nat nat) (st : State) : State :=
  {| topic := topic st; questions := questions st; answers := v;
     submitted := submitted st; score := score st; isGenerating := isGenerating st |}.

Definition setSubmitted (v : bool) (st : State) : State :=
  {| topic := topic st; questions := questions st; answers := answers st;
     submitted := v; score := score st; isGenerating := isGenerating st |}.

Definition setScore (v : option nat) (st : State) : State :=
  {| topic := topic st; questions := questions st; answers := answers st;
     submitted := submitted st; score := v; isGenerating := isGenerating st |}.

(** What the panel does to the outside: [fetch(url, {method, body:
    JSON.stringify({topic})})] and [alert(text)]. *)
Inductive Effect : Type :=
| Fetch (url method topic : string)
| Alert (text : string).

(** [await fetch(..)] with [response.ok], and [(await response.json()).questions]
    ([None] when the field is absent). *)
Inductive Fetched : Type :=
| FetchRejects (e : Thrown)
| FetchResponds (ok : bool) (json : Thrown + option (list Question)).

Definition Reply (e : Effect) : Type :=
  match e with
  | Fetch _ _ _ => Fetched
  | Alert _ => unit
  end.

Abbreviation Handler := (Proc.t State Effect Reply).

Definition GENERATE_ALERT : string :=
  "Failed to generate quiz. Please make sure your Gemini API key is configured correctly.".

(** The [try] block of [handleGenerate]; [inl] is a thrown value. *)
Definition generate_try (topic : string) : Handler (Thrown + unit) :=
  Proc.Await (Fetch "/api/generate-quiz" "POST" topic)
    (λ fetched : Fetched,
       match fetched with
       | FetchRejects e => mret (inl e)
       | FetchResponds false _ => mret (inl (Error (Some "Failed to generate quiz")))
       | FetchResponds true (inl e) => mret (inl e)
       | FetchResponds true (inr data_questions) =>
           Proc.Update (setQuestions data_questions) (mret (inr tt))
       end).

(** [handleGenerate()], created in a render with state [st]. *)
Definition handleGenerate (st : State) : Handler unit :=
  if (trim (topic st) =? "") || isGenerating st then mret tt
  else
    Proc.Update (setIsGenerating true) (
    Proc.Update (setQuestions None) (
    Proc.Update (setAnswers ∅) (
    Proc.Update (setSubmitted false) (
    Proc.Update (setScore None) (
    r ← generate_try (topic st);
    match r with
    | inr _ => mret tt
    | inl error => Proc.Await (Alert GENERATE_ALERT) (λ _ : unit, mret tt)
    end;;
    Proc.Update (setIsGenerating false) (mret tt)))))).

(** The panel runs [handleGenerate] of its current state. *)
Definition generate (world : ∀ e, Reply e) (st : State) : Proc.Run unit :=
  Proc.run world (handleGenerate st) st.

(** ** What the rendering computes for option [oIndex] of question
    [qIndex] *)

Definition isSelected (st : State) (qIndex oIndex : nat) : bool :=
  strict_eq (answer_at (answers st) qIndex) (JNum (Z.of_nat oIndex)).

Definition isCorrect (q : Question) (oIndex : nat) : bool :=
  strict_eq (JNum (Z.of_nat oIndex)) (correctAnswer q).

Definition isWrong (st : State) (q : Question) (qIndex oIndex : nat) : bool :=
  submitted st && isSelected st qIndex oIndex && negb (isCorrect q oIndex).

(** The class of the [label] of the option. *)
Definition label_class (st : State) (q : Question) (qIndex oIndex : nat) : string :=
  if submitted st then
    if isCorrect q oIndex then "bg-green-100 border-2 border-green-500"
    else if isWrong st q qIndex oIndex then "bg-red-100 border-2 border-red-500"
    else "bg-gray-100"
  else if isSelected st qIndex oIndex then "bg-blue-100 border-2 border-blue-500"
  else "bg-white border-2 border-gray-200 hover:border-blue-300".

(** The question carries the index of one of its options. *)
Definition valid_index (q : Question) : Prop :=
  ∃ n : nat, (n < length (options q))%nat ∧ correctAnswer q = JNum (Z.of_nat n).

(** [question.options.map((option, oIndex) => ...)]: one of the options
    drawn for question [qIndex] is both selected and correct. *)
Definition shows_right (st : State) (q : Question) (qIndex : nat) : bool :=
  existsb (λ oIndex, isSelected st qIndex oIndex && isCorrect q oIndex)
          (seq 0 (length (options q))).

(** One of the options drawn for question [qIndex] is marked wrong. *)
Definition shows_wrong (st : State) (q : Question) (qIndex : nat) : bool :=
  existsb (λ oIndex, isWrong st q qIndex oIndex) (seq 0 (length (options q))).

(** [questions.map((question, qIndex) => ...)]: for each question drawn,
    whether it shows a selected and correct option. *)
Definition marks (st : State) (qs : list Question) : list bool :=
  imap (λ qIndex q, shows_right st q qIndex) qs.

(** ** The panel in front of the quiz endpoint *)

(** The response of the server as the panel receives it.
    [response.json()] gives the parsed body [data], and the panel then
    reads [data.questions]: on [null] that read throws a [TypeError],
    worded by the engine of the browser, inside the [try] block; on any
    other value it is [decode data], the field read as a list of
    questions, [None] when there is no such field.  An error body has no
    [questions] field. *)
Definition receive (browser : Server.Engine)
           (decode : Wire.Json → option (list Question))
           (r : Server.Response) : Fetched :=
  FetchResponds ((200 <=? Server.status r)%nat && (Server.status r <? 300)%nat)
    match Server.body r with
    | Server.QuizBody Wire.JsNull =>
        inl (Error (Some (Server.null_read_message browser "null" "questions")))
    | Server.QuizBody data => inr (decode data)
    | _ => inr None
    end.

(** The outside of the panel when every request reaches
    [POST /api/generate-quiz] of a server with environment [env]. *)
Definition quiz_backend (browser : Server.Engine)
           (decode : Wire.Json → option (list Question))
           (eng : Server.Engine) (env : Server.Env)
           (world : ∀ u, Server.Outcome u) : ∀ e, Reply e :=
  λ e, match e with
       | Fetch _ _ topic =>
           receive browser decode (Proc.value (Server.serve world
             (Server.generate_quiz eng env (Some topic))))
       | Alert _ => tt
       end.

(** The upstream call of the quiz endpoint for the topic of the panel. *)
Definition quiz_call (client : Server.GoogleGenerativeAI) (st : State) : Server.Upstream :=
  Server.GenerateContent client Server.quiz_model
    (Server.Prompt (Server.quiz_prompt (Some (topic st)))).

(** A quiz document of the shape the instructions ask for, and a reader of
    such documents. *)
Definition sample_question_json (text : string) (correct : Z) : Wire.Json :=
  Wire.JsObj [("question", Wire.JsStr text);
              ("options", Wire.JsArr [Wire.JsStr "A"; Wire.JsStr "B";
                                      Wire.JsStr "C"; Wire.JsStr "D"]);
              ("correctAnswer", Wire.JsNum correct)].

Definition sample_quiz_json : Wire.Json :=
  Wire.JsObj [("questions",
               Wire.JsArr [ sample_question_json "Q1" 2; sample_question_json "Q2" 0;
                            sample_question_json "Q3" 3; sample_question_json "Q4" 1;
                            sample_question_json "Q5" 1 ])].

Fixpoint field (name : string) (fields : list (string * Wire.Json)) : option Wire.Json :=
  match fields with
  | [] => None
  | (key, v) :: rest => if key =? name then Some v else field name rest
  end.

Definition typed_text (j : option Wire.Json) : option string :=
  match j with
  | Some (Wire.JsStr s) => Some s
  | _ => None
  end.

Definition typed_question (j : Wire.Json) : option Question :=
  match j with
  | Wire.JsObj fields =>
      match typed_text (field "question" fields), field "options" fields,
            field "correctAnswer" fields with
      | Some text, Some (Wire.JsArr os), Some (Wire.JsNum z) =>
          os' ← mapM (λ o, typed_text (Some o)) os;
          Some {| question := text; options := os'; correctAnswer := JNum z |}
      | _, _, _ => None
      end
  | _ => None
  end.

(** The [questions] of a document whose questions all have a text, textual
    options and a number as answer. *)
Definition typed_questions (data : Wire.Json) : option (list Question) :=
  match data with
  | Wire.JsObj fields =>
      match field "questions" fields with
      | Some (Wire.JsArr qs) => mapM typed_question qs
      | _ => None
      end
  | _ => None
  end.

(** The questions stored by a generation, by the outcome of its request:
    those of a successful response, none otherwise. *)
Definition generated_questions (fetched : Fetched) : option (list Question) :=
  match fetched with
  | FetchResponds true (inr data_questions) => data_questions
  | _ => None
  end.

(** The request succeeded and its body was JSON. *)
Definition generated (fetched : Fetched) : bool :=
  match fetched with
  | FetchResponds true (inr _) => true
  | _ => false
  end.

(** The request of a generation. *)
Definition generate_request (st : State) : Effect :=
  Fetch "/api/generate-quiz" "POST" (topic st).

(** A submitted panel with a stale topic, and a quiz service that answers
    with [sample_quiz]. *)
Definition sample_submitted : State := handleSubmit sample_answered.

Definition serving (qs : list Question) : ∀ e, Reply e :=
  λ e, match e with
       | Fetch _ _ _ => FetchResponds true (inr (Some qs))
       | Alert _ => tt
       end.

End QuizGenerator.
(* ===================================================================== *)
(** * Properties of the quiz panel *)
(* ===================================================================== *)

Section QuizScore.
Import JS QuizGenerator.

(** Adding to a filter one more accepted key [k] adds at most one entry. *)
Lemma size_filter_add_key (P Q : nat * nat → Prop)
      `{!∀ x, Decision (P x)} `{!∀ x, Decision (Q x)}
      (R : nat → Prop) `{!∀ v, Decision (R v)} (k : nat) (m : gmap nat nat) :
  (∀ v, ¬ P (k, v)) →
  (∀ i v, Q (i, v) ↔ P (i, v) ∨ (i = k ∧ R v)) →
  size (filter Q m) =
  size (filter P m) + (if m !! k is Some v then if decide (R v) then 1 else 0 else 0).
Proof.
  intros HPk HQ.
  destruct (m !! k) as [v|] eqn:Hk; [destruct (decide (R v)) as [Hv|Hv]|].
  - assert (filter Q m = <[k:=v]> (filter P m)) as ->.
    { apply map_eq; intros i. apply option_eq; intros x.
      rewrite map_lookup_filter_Some. destruct (decide (i = k)) as [->|Hne].
      + rewrite lookup_insert_eq, Hk. split.
        * intros [? _]; congruence.
        * intros [= <-]. split; [done|]. apply HQ. by right.
      + rewrite lookup_insert_ne by done. rewrite map_lookup_filter_Some.
        rewrite HQ. split.
        * intros [? [?|[? _]]]; done.
        * intros [? ?]. split; [done|by left]. }
    rewrite map_size_insert_None; [lia|].
    apply map_lookup_filter_None. right. intros x _. apply HPk.
  - rewrite Nat.add_0_r. f_equal. apply map_filter_ext. intros i x Hi.
    rewrite HQ. split; [|by left]. intros [?|[-> ?]]; [done|].
    by simplify_eq.
  - rewrite Nat.add_0_r. f_equal. apply map_filter_ext. intros i x Hi.
    rewrite HQ. split; [|by left]. intros [?|[-> ?]]; [done|].
    by simplify_eq.
Qed.

(** On a question that has an index, the comparison of the loop succeeds
    exactly for a recorded answer equal to that index. *)
Lemma strict_eq_answer (a : gmap nat nat) (index : nat) (q : Question) :
  has_index q →
  strict_eq (answer_at a index) (correctAnswer q) =
  if a !! index is Some v
  then if decide (correctAnswer q = JNum (Z.of_nat v)) then true else false
  else false.
Proof.
  intros [n Hn]. unfold strict_eq, answer_at.
  destruct (a !! index) as [v|].
  - destruct (decide _) as [->|Hne].
    + by apply bool_decide_eq_true_2.
    + apply bool_decide_eq_false_2. congruence.
  - apply bool_decide_eq_false_2. congruence.
Qed.

Lemma forEach_count_spec (a : gmap nat nat) (qs : list Question) (index c : nat) :
  Forall has_index qs →
  forEach_count a qs index c = c + size (filter (hit_from index qs) a).
Proof.
  intros Hqs. revert index c.
  induction Hqs as [|q rest Hq Hrest IH]; intros index c; simpl.
  - assert (filter (hit_from index []) a = ∅) as ->.
    { apply map_empty. intros i. apply map_lookup_filter_None. right.
      intros x _ [_ H]. simpl in H. done. }
    rewrite map_size_empty. lia.
  - rewrite IH, (strict_eq_answer _ _ _ Hq).
    rewrite (size_filter_add_key (hit_from (S index) rest)
               (hit_from index (q :: rest))
               (λ v, correctAnswer q = JNum (Z.of_nat v)) index).
    + destruct (a !! index) as [v|]; [destruct (decide _)|]; lia.
    + intros v [Hle _]. simpl in Hle. lia.
    + intros i v. unfold hit_from. simpl. split.
      * intros [Hle H]. destruct (decide (i = index)) as [->|Hne].
        -- right. split; [done|]. rewrite Nat.sub_diag in H. simpl in H. congruence.
        -- left. split; [lia|].
           replace (i - index) with (S (i - S index)) in H by lia. done.
      * intros [[Hle H]|[-> H]].
        -- split; [lia|].
           replace (i - index) with (S (i - S index)) by lia. done.
        -- split; [lia|]. rewrite Nat.sub_diag. simpl. congruence.
Qed.

Lemma hit_from_0 (qs : list Question) (a : gmap nat nat) :
  filter (hit_from 0 qs) a = hits qs a.
Proof.
  unfold hits. apply map_filter_ext. intros i x _.
  unfold hit_from, is_hit. simpl. rewrite Nat.sub_0_r. split; [by intros [_ ?]|].
  intros H. split; [lia|done].
Qed.

(** C2. For a quiz whose questions all carry a correct-answer index, the
    score set by the submission is the number of entries [i ↦ A[i]] of the
    answer set with [A[i]] equal to [Q[i].correctAnswer]; every entry that
    counts belongs to an answered index inside the quiz, so an unanswered
    or out-of-range index contributes nothing. *)
Theorem handleSubmit_score (st : State) (qs : list Question) :
  questions st = Some qs →
  submitted st = false →
  Forall has_index qs →
  score (handleSubmit st) = Some (size (hits qs (answers st)))
  ∧ (∀ i, is_Some (hits qs (answers st) !! i) →
          is_Some (answers st !! i) ∧ (i < length qs)%nat)
  ∧ (∀ i, answers st !! i = None ∨ (length qs ≤ i)%nat →
          hits qs (answers st) !! i = None).
Proof.
  intros Hq Hs Hidx.
  assert (∀ i, is_Some (hits qs (answers st) !! i) →
               is_Some (answers st !! i) ∧ (i < length qs)%nat) as Hin.
  { intros i [x Hx]. apply map_lookup_filter_Some in Hx as [Hx Hhit].
    split; [by eexists|]. unfold is_hit in Hhit. simpl in Hhit.
    destruct (qs !! i) eqn:Hi; [|done]. by eapply lookup_lt_Some. }
  split; [|split; [done|]].
  - unfold handleSubmit. rewrite Hq, Hs. simpl.
    by rewrite forEach_count_spec, hit_from_0.
  - intros i Hi. destruct (hits qs (answers st) !! i) eqn:Hl; [|done].
    destruct (Hin i) as [[x Hx] Hlt]; [by eexists|].
    destruct Hi as [Hi|Hi]; [congruence|lia].
Qed.

(** All five answers right give 5; all five shifted by one give 0. *)
Example sample_all_right :
  score (handleSubmit (foldl step sample_ready
           [Select 0 2; Select 1 0; Select 2 3; Select 3 1; Select 4 1])) = Some 5.
Proof. reflexivity. Qed.

Example sample_all_wrong :
  score (handleSubmit (foldl step sample_ready
           [Select 0 3; Select 1 1; Select 2 0; Select 3 2; Select 4 2])) = Some 0.
Proof. reflexivity. Qed.

(** A question without [correctAnswer] counts an unanswered index: the
    comparison is [undefined === undefined]. *)
Example missing_correctAnswer_counts :
  score (handleSubmit
           {| topic := ""; submitted := false; score := None; isGenerating := false;
              answers := ∅;
              questions := Some [{| question := "Q"; options := [];
                                    correctAnswer := JUndefined |}] |}) = Some 1.
Proof. reflexivity. Qed.

Lemma handleSubmit_score_witness :
  score (handleSubmit sample_answered)
  = Some (size (hits sample_quiz (answers sample_answered)))
  ∧ (∀ i, is_Some (hits sample_quiz (answers sample_answered) !! i) →
          is_Some (answers sample_answered !! i) ∧ (i < length sample_quiz)%nat)
  ∧ (∀ i, answers sample_answered !! i = None ∨ (length sample_quiz ≤ i)%nat →
          hits sample_quiz (answers sample_answered) !! i = None).
Proof.
  apply (handleSubmit_score sample_answered sample_quiz).
  - reflexivity.
  - reflexivity.
  - repeat constructor; [by exists 2%nat|by exists 0%nat|by exists 3%nat
                        |by exists 1%nat|by exists 1%nat].
Defined.

End QuizScore.

Section QuizFrozen.
Import JS QuizGenerator.

Lemma step_submitted (st : State) (a : Action) :
  submitted st = true → step st a = st.
Proof.
  intros Hs. destruct a as [qi ai|]; simpl.
  - unfold handleAnswerChange. by rewrite Hs.
  - unfold handleSubmit. rewrite Hs. by destruct (questions st).
Qed.

Lemma steps_submitted (st : State) (acts : list Action) :
  submitted st = true → foldl step st acts = st.
Proof.
  intros Hs. induction acts as [|a acts IH]; simpl; [done|].
  by rewrite step_submitted.
Qed.

(** C4. Once [submitted] is true the panel state is frozen: selecting an
    answer leaves the answer set as it is, submitting again leaves the
    score as it is, and so does every sequence of selections and
    submissions. *)
Theorem submitted_is_frozen (st : State) :
  submitted st = true →
  (∀ qi ai, answers (handleAnswerChange st qi ai) = answers st)
  ∧ score (handleSubmit st) = score st
  ∧ (∀ acts, foldl step st acts = st).
Proof.
  intros Hs. split; [|split].
  - intros qi ai. pose proof (step_submitted st (Select qi ai) Hs) as H.
    simpl in H. by rewrite H.
  - pose proof (step_submitted st Submit Hs) as H. simpl in H. by rewrite H.
  - intros acts. by apply steps_submitted.
Qed.

Lemma submitted_is_frozen_witness :
  let st := handleSubmit sample_answered in
  (∀ qi ai, answers (handleAnswerChange st qi ai) = answers st)
  ∧ score (handleSubmit st) = score st
  ∧ (∀ acts, foldl step st acts = st).
Proof.
  apply (submitted_is_frozen (handleSubmit sample_answered)). reflexivity.
Defined.

End QuizFrozen.

(* ===================================================================== *)
(** * Properties of the generative-text adapter *)
(* ===================================================================== *)

Section Conversation.
Import JS Server.

Lemma push_message_kept (acc : list Turn) (messages : list (option Wire.Message)) :
  fold_left push_message messages acc = acc ++ (turn_of <$> kept messages).
Proof.
  revert acc. induction messages as [|[m|] rest IH]; intros acc; simpl.
  - by rewrite app_nil_r.
  - rewrite IH. destruct (truthy (Wire.content m)); simpl; [|done].
    rewrite <- app_assoc. simpl. do 3 f_equal.
    unfold turn_of, strict_eq. f_equal.
    destruct (decide (Wire.role m = JStr "assistant")) as [H|H].
    + by rewrite bool_decide_eq_true_2.
    + by rewrite bool_decide_eq_false_2.
  - apply IH.
Qed.

Lemma buildConversation_kept (messages : list (option Wire.Message)) (includePrompt : bool) :
  buildConversation messages includePrompt =
  (if includePrompt then [prompt_turn] else []) ++ (turn_of <$> kept messages).
Proof.
  unfold buildConversation. rewrite push_message_kept. by destruct includePrompt.
Qed.

Lemma kept_app (l1 l2 : list (option Wire.Message)) :
  kept (l1 ++ l2) = kept l1 ++ kept l2.
Proof.
  induction l1 as [|[m|] l1 IH]; simpl; [done| |done].
  destruct (truthy (Wire.content m)); simpl; by rewrite IH.
Qed.

Lemma kept_length (l : list (option Wire.Message)) : (length (kept l) ≤ length l)%nat.
Proof.
  induction l as [|[m|] l IH]; simpl; [lia| |lia].
  destruct (truthy (Wire.content m)); simpl; lia.
Qed.

Lemma no_content_falsy (m : Wire.Message) : no_content m → truthy (Wire.content m) = false.
Proof. by intros [->|[->| ->]]. Qed.

(** With the credential set, the chat endpoint makes one upstream call,
    whose contents are the conversation built from the transcript. *)
Lemma chat_requests (eng : Engine) (env : Env) (world : ∀ u, Outcome u)
      (ms : list (option Wire.Message)) (client : GoogleGenerativeAI) :
  genAI env = Some client →
  Proc.requests (serve world (chat eng env {| messages := Some ms |}))
  = [GenerateContent client chat_model (Contents (buildConversation ms true))].
Proof.
  intros Hc. unfold serve, chat, chat_try.
  assert (hasGeminiKey env = true) as ->.
  { unfold genAI in Hc. by destruct (hasGeminiKey env). }
  rewrite Hc. simpl.
  by destruct (world (GenerateContent client _ _)).
Qed.

(** C6 as stated fails on a transcript with an entry of empty content:
    the entry gets no turn. *)
Lemma one_turn_per_entry_counterexample :
  let m := {| Wire.role := JStr "user"; Wire.content := JStr "" |} in
  buildConversation [Some m] true = [prompt_turn]
  ∧ buildConversation [Some m] true ≠ prompt_turn :: (turn_of <$> [m]).
Proof. split; [reflexivity|discriminate]. Qed.

(** C6, amended. The conversation built for the generative service begins
    with the fixed study-partner instruction as a user-role turn, followed
    by one turn per transcript entry that has a truthy content, in order;
    the turn of an entry has the model role when the entry's role is
    [assistant] and the user role otherwise, and carries its content. *)
Theorem buildConversation_turns (messages : list (option Wire.Message)) :
  buildConversation messages true = prompt_turn :: (turn_of <$> kept messages).
Proof. by rewrite buildConversation_kept. Qed.

(** C10. An entry whose content is missing, [null] or the empty string is
    left out of the conversation: the conversation is the one of the
    transcript without that entry, the conversation has fewer turns after
    the instruction than the transcript has entries, and the upstream call
    of the chat endpoint carries the conversation of the transcript
    without that entry. *)
Theorem buildConversation_omits_empty
        (before after : list (option Wire.Message)) (m : Wire.Message)
        (includePrompt : bool) :
  no_content m →
  buildConversation (before ++ Some m :: after) includePrompt
  = buildConversation (before ++ after) includePrompt
  ∧ (length (buildConversation (before ++ Some m :: after) false)
     < length (before ++ Some m :: after))%nat
  ∧ (∀ eng env world client, genAI env = Some client →
       Proc.requests (serve world (chat eng env {| messages := Some (before ++ Some m :: after) |}))
       = [GenerateContent client chat_model
            (Contents (buildConversation (before ++ after) true))]).
Proof.
  intros Hm. apply no_content_falsy in Hm.
  assert (kept (before ++ Some m :: after) = kept (before ++ after)) as Hk.
  { rewrite !kept_app. simpl. by rewrite Hm. }
  assert (∀ p, buildConversation (before ++ Some m :: after) p
               = buildConversation (before ++ after) p) as Hb.
  { intros p. by rewrite !buildConversation_kept, Hk. }
  split; [done|split].
  - rewrite buildConversation_kept, Hk. simpl. rewrite length_fmap.
    pose proof (kept_length (before ++ after)) as Hle.
    rewrite !length_app in *. simpl. lia.
  - intros eng env world client Hc.
    by rewrite (chat_requests eng env world _ client Hc), Hb.
Qed.

Lemma buildConversation_omits_empty_witness :
  let m := {| Wire.role := JStr "user"; Wire.content := JStr "" |} in
  let before := [Some StudyChat.greeting] in
  let after := [Some {| Wire.role := JStr "user"; Wire.content := JStr "What is osmosis?" |}] in
  buildConversation (before ++ Some m :: after) true
  = buildConversation (before ++ after) true
  ∧ (length (buildConversation (before ++ Some m :: after) false)
     < length (before ++ Some m :: after))%nat
  ∧ (∀ eng env world client, genAI env = Some client →
       Proc.requests (serve world (chat eng env {| messages := Some (before ++ Some m :: after) |}))
       = [GenerateContent client chat_model
            (Contents (buildConversation (before ++ after) true))]).
Proof.
  intros m before after.
  apply (buildConversation_omits_empty before after m true).
  right; right; reflexivity.
Defined.

End Conversation.

(* ===================================================================== *)
(** * Properties of the router *)
(* ===================================================================== *)

Section Classifier.
Import JS Server.

(** The message that is classified: the upstream one, or the default when
    it is absent or empty. *)
Lemma createErrorMessage_classify (error : Thrown) :
  createErrorMessage error
  = classify (or_default (message error) "Gemini API request failed.").
Proof.
  unfold createErrorMessage, classify, rules. simpl.
  set (raw := or_default (message error) "Gemini API request failed.").
  set (lower := toLowerCase raw).
  unfold fires. simpl. rewrite !orb_false_r.
  destruct (includes lower "permission"), (includes lower "unauthorized"),
    (includes lower "api key"); simpl; try reflexivity.
  destruct (includes lower "quota"), (includes lower "billing"),
    (includes lower "exceeded"); simpl; try reflexivity.
  by destruct (includes lower "rate limit").
Qed.

(** C7 as stated fails on an upstream error whose message is empty: the
    classifier returns the default text, not the raw message. *)
Lemma createErrorMessage_empty_counterexample :
  createErrorMessage (Error (Some "")) = "Gemini API request failed."
  ∧ classify "" = ""
  ∧ createErrorMessage (Error (Some "")) ≠ classify "".
Proof. split; [reflexivity|split; [reflexivity|discriminate]]. Qed.

(** C7, amended. The classifier takes the upstream message, or the default
    text when the message is absent or empty, lower-cases it and applies
    the rules in order, first match wins: invalid-credential guidance on
    [permission], [unauthorized] or [api key]; otherwise quota guidance on
    [quota], [billing] or [exceeded]; otherwise rate-limit guidance on
    [rate limit]; otherwise that message unchanged.  In particular a
    non-empty upstream message that triggers no rule is returned raw. *)
Theorem createErrorMessage_rules (error : Thrown) :
  let raw := or_default (message error) "Gemini API request failed." in
  let lower := toLowerCase raw in
  createErrorMessage error = classify raw
  ∧ (∀ msg, message error = Some msg → msg ≠ "" → raw = msg)
  ∧ (fires lower credential_rule = true →
     createErrorMessage error = invalid_credential_guidance)
  ∧ (fires lower credential_rule = false → fires lower quota_rule = true →
     createErrorMessage error = quota_exceeded_guidance)
  ∧ (fires lower credential_rule = false → fires lower quota_rule = false →
     fires lower rate_rule = true →
     createErrorMessage error = rate_limit_guidance)
  ∧ (fires lower credential_rule = false → fires lower quota_rule = false →
     fires lower rate_rule = false →
     createErrorMessage error = raw).
Proof.
  intros raw lower. rewrite createErrorMessage_classify. fold raw.
  split; [done|split].
  { intros msg Hmsg Hne. unfold raw. rewrite Hmsg. simpl.
    destruct (String.eqb_spec msg ""); [done|done]. }
  unfold classify, rules. fold lower. simpl.
  repeat split.
  - by intros ->.
  - by intros -> ->.
  - by intros -> -> ->.
  - by intros -> -> ->.
Qed.

End Classifier.

Section Credential.
Import JS Server.

(** C1, on the code. With [GEMINI_API_KEY] unset the chat endpoint answers
    503 with the guidance to add the credential and calls nothing
    upstream; the quiz endpoint has no such guard: it calls nothing
    upstream either, but reading [getGenerativeModel] from the absent
    client throws, and the answer is 500 with the classified message of
    that [TypeError]. *)
Theorem unset_key_chat_503_quiz_500
        (eng : Engine) (world : ∀ u, Outcome u)
        (req : ChatRequest) (topic : option string) :
  let env := {| GEMINI_API_KEY := None |} in
  serve world (chat eng env req)
  = {| Proc.value :=
         {| status := 503;
            body := ErrorBody "Gemini is not configured"
                      (Some "Add GEMINI_API_KEY to your .env to enable chat.") |};
       Proc.final := tt; Proc.log := [] |}
  ∧ serve world (generate_quiz eng env topic)
  = {| Proc.value :=
         {| status := 500;
            body := ErrorBody "Failed to generate quiz"
                      (Some (createErrorMessage
                               (Error (Some (null_read_message eng "null" "getGenerativeModel"))))) |};
       Proc.final := tt; Proc.log := [] |}.
Proof. split; reflexivity. Qed.

(** On Node.js the details of that answer are the raw message of the
    [TypeError]: no rule of the classifier fires on it. *)
Example unset_key_quiz_on_v8 :
  Proc.value (serve no_hits (generate_quiz v8 {| GEMINI_API_KEY := None |}
                               (Some "Photosynthesis")))
  = {| status := 500;
       body := ErrorBody "Failed to generate quiz"
                 (Some "Cannot read properties of null (reading 'getGenerativeModel')") |}.
Proof. reflexivity. Qed.

End Credential.

(* ===================================================================== *)
(** * Facts about the string primitives *)
(* ===================================================================== *)

Section Strings.
Import JS.

Lemma eqb_empty_false (s : string) : s ≠ "" → (s =? "") = false.
Proof. intros H. by destruct (String.eqb_spec s ""). Qed.

Lemma startsWith_app (p r : string) : startsWith (p +:+ r) p = true.
Proof. induction p as [|c p IH]; simpl; [done|]. by rewrite Ascii.eqb_refl. Qed.

Lemma includes_here (s p : string) : startsWith s p = true → includes s p = true.
Proof. intros H. destruct s; simpl in *; by rewrite H. Qed.

Lemma includes_app_l (a s p : string) :
  includes s p = true → includes (a +:+ s) p = true.
Proof.
  intros H. induction a as [|c a IH]; simpl; [done|].
  rewrite IH. apply orb_true_r.
Qed.

Lemma includes_self (p : string) : includes p p = true.
Proof.
  apply includes_here. pose proof (startsWith_app p "") as H.
  assert (p +:+ "" = p) as Hp.
  { clear H. induction p as [|c p IH]; simpl; [done|by rewrite IH]. }
  by rewrite Hp in H.
Qed.

Lemma trimStart_empty (s : string) : trimStart s = "" ↔ blank s = true.
Proof.
  induction s as [|c s IH]; simpl; [done|].
  destruct (isWhiteSpace c); simpl; [done|]. split; discriminate.
Qed.

Lemma trimEnd_empty (s : string) : trimEnd s = "" ↔ blank s = true.
Proof.
  induction s as [|c s IH]; simpl; [done|].
  destruct (trimEnd s) as [|d t].
  - destruct (isWhiteSpace c); simpl.
    + split; [intros _; by apply IH|done].
    + split; discriminate.
  - split; [discriminate|]. intros [_ H]%andb_true_iff.
    apply IH in H. discriminate.
Qed.

Lemma blank_trimStart (s : string) : blank (trimStart s) = blank s.
Proof.
  induction s as [|c s IH]; simpl; [done|].
  destruct (isWhiteSpace c) eqn:Hc; simpl; [done|]. by rewrite Hc.
Qed.

Lemma trim_empty (s : string) : trim s = "" ↔ blank s = true.
Proof. unfold trim. by rewrite trimEnd_empty, blank_trimStart. Qed.

(** A trimmed string does not end in white space: none of its non-empty
    suffixes is blank. *)
Lemma trimEnd_suffix (u p q : string) :
  trimEnd u = p +:+ q → q ≠ "" → blank q = false.
Proof.
  revert p q. induction u as [|c u IH]; intros p q; simpl.
  - destruct p, q; simpl; congruence.
  - destruct (trimEnd u) as [|d t] eqn:Ht.
    + destruct (isWhiteSpace c) eqn:Hc.
      * destruct p, q; simpl; congruence.
      * destruct p as [|c' p]; simpl.
        -- intros <- _. simpl. by rewrite Hc.
        -- intros [= <- H] Hq. destruct p, q; simpl in *; congruence.
    + destruct p as [|c' p]; simpl.
      * intros <- _.
        change (isWhiteSpace c && blank (String d t) = false).
        rewrite (IH "" (String d t)); [|done|done].
        apply andb_false_r.
      * intros [= <- H] Hq. by apply (IH p q).
Qed.

Lemma lowerChar_space (c : ascii) : lowerChar c = " "%char → c = " "%char.
Proof.
  destruct c as [[] [] [] [] [] [] [] []]; vm_compute; congruence.
Qed.

(** An input recognised as a search is seven code units, a space, and the
    rest. *)
Lemma search_prefix (t : string) :
  startsWith (toLowerCase t) "/search " = true →
  ∃ p rest, String.length p = 7 ∧ t = p +:+ String " " rest.
Proof.
  intros H.
  do 7 (destruct t as [|? t]; [discriminate H|]; simpl in H;
        match type of H with
        | (if ?b then _ else _) = true => destruct b; [|discriminate H]
        end).
  destruct t as [|c8 rest]; [discriminate H|]. simpl in H.
  match type of H with
  | (if ?b then _ else _) = true => destruct b eqn:Hc; [|discriminate H]
  end.
  apply Ascii.eqb_eq in Hc. apply lowerChar_space in Hc as ->.
  eexists (String _ (String _ (String _ (String _ (String _ (String _ (String _ ""))))))), rest.
  split; reflexivity.
Qed.

Lemma slice_app (p r : string) : slice (p +:+ r) (String.length p) = r.
Proof. induction p as [|c p IH]; simpl; [by destruct r|done]. Qed.

(** The guard [if (!searchQuery) throw ..] of the chat panel can never
    fire: an input recognised as a search has a non-empty query. *)
Lemma search_query_nonempty (input : string) :
  startsWith (toLowerCase (trim input)) "/search " = true →
  trim (slice (trim input) 8) ≠ "".
Proof.
  intros (p & rest & Hlen & Ht)%search_prefix.
  intros Hempty. apply trim_empty in Hempty.
  pose proof (trimEnd_suffix (trimStart input) p (String " " rest) Ht) as Hs.
  specialize (Hs ltac:(discriminate)).
  rewrite Ht in Hempty.
  replace 8%nat with (String.length (p +:+ " ")) in Hempty.
  2:{ clear -Hlen. do 8 (destruct p as [|? p]; try discriminate Hlen). reflexivity. }
  replace (p +:+ String " " rest) with ((p +:+ " ") +:+ rest) in Hempty.
  2:{ clear. induction p as [|c p IH]; simpl; [done|by rewrite IH]. }
  rewrite slice_app in Hempty. simpl in Hs. congruence.
Qed.

End Strings.

(* ===================================================================== *)
(** * Properties of the chat panel *)
(* ===================================================================== *)

Section ChatPanel.
Import JS StudyChat.

(** Copying the two fields of every entry gives the same array. *)
Lemma copy_messages (l : list Wire.Message) :
  map (λ msg, {| Wire.role := Wire.role msg; Wire.content := Wire.content msg |}) l = l.
Proof. induction l as [|[r c] l IH]; simpl; [done|by rewrite IH]. Qed.

(** A run of [handleSubmit] on the chat branch: the state when the request
    is sent, the request, and the state at the end. *)
Lemma submit_chat_path (T : list Wire.Message) (M : string) (network : ∀ r, Reply r) :
  trim M ≠ "" →
  startsWith (toLowerCase (trim M)) "/search " = false →
  let st := {| messages := T; input := M; isLoading := false |} in
  let req := {| url := "/api/chat"; method := "POST"; body := Some (T ++ [user M]) |} in
  Proc.log (submit network st)
  = [({| messages := T ++ [user M]; input := ""; isLoading := true |}, req)]
  ∧ (∃ content,
       Proc.final (submit network st)
       = {| messages := T ++ [user M; assistant content]; input := ""; isLoading := false |})
  ∧ (∀ data, network req = FetchResponds true (inr data) →
       Proc.final (submit network st)
       = {| messages := T ++ [user M; assistant (response data)];
            input := ""; isLoading := false |}).
Proof.
  intros Hne Hchat st req.
  unfold submit, handleSubmit. cbn [input isLoading messages st].
  rewrite (eqb_empty_false _ Hne), Hchat. simpl.
  rewrite copy_messages. fold req.
  unfold setMessages, setInput, setIsLoading. simpl.
  destruct (network req) as [e|[|] [e|data]] eqn:Hn; simpl;
    rewrite <- ?app_assoc; simpl;
    (split; [reflexivity|split; [eexists; reflexivity|]]);
    intros data' [=]; subst; reflexivity.
Qed.

(** A run of [handleSubmit] on the search branch when the search request
    succeeds. *)
Lemma submit_search_ok (T : list Wire.Message) (M : string) (network : ∀ r, Reply r)
      (data : Payload) :
  startsWith (toLowerCase (trim M)) "/search " = true →
  let st := {| messages := T; input := M; isLoading := false |} in
  let searchQuery := trim (slice (trim M) 8) in
  let req := {| url := "/api/search?q=" +:+ encodeURIComponent searchQuery;
                method := "GET"; body := None |} in
  network req = FetchResponds true (inr data) →
  submit network st
  = {| Proc.value := tt;
       Proc.final :=
         {| messages :=
              T ++ [user M;
                    assistant (JStr ("Here are the top results for " +:+ DQ +:+ searchQuery
                                     +:+ DQ +:+ ":" +:+ LF +:+ LF
                                     +:+ format_results (results data)))];
            input := ""; isLoading := false |};
       Proc.log := [({| messages := T ++ [user M]; input := ""; isLoading := true |}, req)] |}.
Proof.
  intros Hsearch st searchQuery req Hn.
  assert (trim M ≠ "") as Hne.
  { intros He. rewrite He in Hsearch. discriminate Hsearch. }
  pose proof (search_query_nonempty M Hsearch) as Hq.
  unfold submit, handleSubmit. cbn [input isLoading messages st].
  rewrite (eqb_empty_false _ Hne), Hsearch.
  cbn [orb]. unfold search_branch.
  rewrite (eqb_empty_false _ Hq). fold searchQuery. fold req.
  cbn [Proc.run Proc.bind mbind proc_bind]. rewrite Hn.
  unfold setMessages, setInput, setIsLoading. simpl.
  by rewrite <- app_assoc.
Qed.

(** C3, on the code. The input [/search] followed by two spaces is trimmed
    before the prefix test, so it is not recognised as a search: it is
    sent to the chat endpoint as an ordinary message, and one network
    request is issued. *)
Theorem search_blank_query_is_sent_as_chat
        (T : list Wire.Message) (network : ∀ r, Reply r) :
  let st := {| messages := T; input := "/search  "; isLoading := false |} in
  trim (input st) = "/search"
  ∧ startsWith (toLowerCase (trim (input st))) "/search " = false
  ∧ Proc.requests (submit network st)
    = [{| url := "/api/chat"; method := "POST";
          body := Some (T ++ [user "/search  "]) |}].
Proof.
  intros st. split; [reflexivity|split; [reflexivity|]].
  destruct (submit_chat_path T "/search  " network) as (Hlog & _ & _);
    [discriminate|reflexivity|].
  unfold Proc.requests, st. by rewrite Hlog.
Qed.

(** C9 as stated fails on an input that is not empty but blank: nothing is
    appended and nothing is sent.  The same early return applies while a
    request is in flight, whatever the input. *)
Lemma blank_input_counterexample :
  let blank_st := {| messages := [greeting]; input := " "; isLoading := false |} in
  let busy_st := {| messages := [greeting]; input := "hello"; isLoading := true |} in
  input blank_st ≠ ""
  ∧ startsWith (toLowerCase (trim (input blank_st))) "/search " = false
  ∧ (∀ network, Proc.final (submit network blank_st) = blank_st
                ∧ Proc.log (submit network blank_st) = [])
  ∧ (∀ network, Proc.final (submit network busy_st) = busy_st
                ∧ Proc.log (submit network busy_st) = []).
Proof.
  split; [discriminate|split; [reflexivity|split]];
    intros network; split; reflexivity.
Qed.

(** C9, amended. For every transcript [T] and every input [M] that is not
    blank and is not a search, submitted while no request is in flight:
    one chat request is sent; when it is sent the transcript is [T]
    followed by one user entry with content [M], and the request carries
    that transcript; after a successful response the transcript is [T],
    the user entry and one assistant entry with the response; whatever
    the outcome, exactly two entries have been appended. *)
Theorem chat_submit_appends_one_each
        (T : list Wire.Message) (M : string) (network : ∀ r, Reply r) :
  trim M ≠ "" →
  startsWith (toLowerCase (trim M)) "/search " = false →
  let st := {| messages := T; input := M; isLoading := false |} in
  let req := {| url := "/api/chat"; method := "POST"; body := Some (T ++ [user M]) |} in
  (∃ s, Proc.log (submit network st) = [(s, req)] ∧ messages s = T ++ [user M])
  ∧ (∀ data, network req = FetchResponds true (inr data) →
       messages (Proc.final (submit network st))
       = T ++ [user M; assistant (response data)])
  ∧ (∃ content,
       messages (Proc.final (submit network st)) = T ++ [user M; assistant content])
  ∧ length (messages (Proc.final (submit network st))) = (length T + 2)%nat.
Proof.
  intros Hne Hchat st req.
  destruct (submit_chat_path T M network Hne Hchat) as (Hlog & [content Hfin] & Hok).
  fold st req in Hlog, Hfin, Hok.
  split; [|split; [|split]].
  - eexists. split; [exact Hlog|reflexivity].
  - intros data Hdata. by rewrite (Hok data Hdata).
  - exists content. by rewrite Hfin.
  - rewrite Hfin. simpl. rewrite length_app. simpl. lia.
Qed.

Lemma chat_submit_appends_one_each_witness :
  let T := [greeting] in
  let M := "What is osmosis?" in
  let network := answering "Osmosis is the diffusion of water through a membrane." in
  let st := {| messages := T; input := M; isLoading := false |} in
  let req := {| url := "/api/chat"; method := "POST"; body := Some (T ++ [user M]) |} in
  (∃ s, Proc.log (submit network st) = [(s, req)] ∧ messages s = T ++ [user M])
  ∧ (∀ data, network req = FetchResponds true (inr data) →
       messages (Proc.final (submit network st))
       = T ++ [user M; assistant (response data)])
  ∧ (∃ content,
       messages (Proc.final (submit network st)) = T ++ [user M; assistant content])
  ∧ length (messages (Proc.final (submit network st))) = (length T + 2)%nat.
Proof.
  intros T M network.
  apply (chat_submit_appends_one_each T M network).
  - intros H. vm_compute in H. discriminate H.
  - vm_compute. reflexivity.
Defined.

End ChatPanel.

Section Search.
Import JS Server.

(** The search endpoint on an upstream answer without hits. *)
Lemma search_zero_hits (eng : Engine) (env : Env) (q : option string)
      (world : ∀ u, Outcome u) (base : string) (params : list (string * string))
      (data : SearchData) :
  Proc.requests (serve world (search eng env q)) = [FetchUrl base params] →
  world (FetchUrl base params) = FetchResponds true (inr data) →
  query_search data = Some [] →
  Proc.value (serve world (search eng env q))
  = {| status := 200; body := SearchBody [] |}.
Proof.
  unfold serve, search.
  destruct (trim (or_default q "") =? ""); [discriminate|].
  destruct (hasGeminiKey env); [|discriminate].
  unfold search_try. cbn [negb Proc.run Proc.bind mbind proc_bind Proc.requests Proc.log].
  cbn [fmap list_fmap snd]. intros [= <- <-] Hw Hd.
  rewrite Hw. cbn [negb]. rewrite Hd. reflexivity.
Qed.

End Search.

Section NoResults.
Import JS.

(** C5. When the upstream call of the search endpoint succeeds with zero
    hits, the endpoint answers 200 with an empty results sequence; the
    chat panel that receives this answer appends one assistant entry, the
    results message ending in the text [No results found.], and no error
    entry. *)
Theorem zero_hits_render_no_results
        (eng : Server.Engine) (env : Server.Env) (q : option string)
        (world : ∀ u, Server.Outcome u)
        (base : string) (params : list (string * string)) (data : Server.SearchData)
        (T : list Wire.Message) (M : string) (network : ∀ r, StudyChat.Reply r) :
  Proc.requests (Server.serve world (Server.search eng env q)) = [Server.FetchUrl base params] →
  world (Server.FetchUrl base params) = Server.FetchResponds true (inr data) →
  Server.query_search data = Some [] →
  startsWith (toLowerCase (trim M)) "/search " = true →
  (∀ r, network r = StudyChat.receive (Proc.value (Server.serve world (Server.search eng env q)))) →
  let st := {| StudyChat.messages := T; StudyChat.input := M; StudyChat.isLoading := false |} in
  let content :=
    "Here are the top results for " +:+ DQ +:+ trim (slice (trim M) 8) +:+ DQ +:+ ":"
    +:+ LF +:+ LF +:+ "No results found." in
  Proc.value (Server.serve world (Server.search eng env q))
  = {| Server.status := 200; Server.body := Server.SearchBody [] |}
  ∧ StudyChat.messages (Proc.final (StudyChat.submit network st))
    = T ++ [StudyChat.user M; StudyChat.assistant (JStr content)]
  ∧ includes content "No results found." = true.
Proof.
  intros Hreq Hw Hd Hsearch Hnet st content.
  pose proof (search_zero_hits eng env q world base params data Hreq Hw Hd) as Hresp.
  split; [exact Hresp|split].
  - rewrite Hresp in Hnet. unfold st.
    rewrite (submit_search_ok T M network _ Hsearch (Hnet _)).
    reflexivity.
  - unfold content. do 7 apply includes_app_l. apply includes_self.
Qed.

Lemma zero_hits_render_no_results_witness :
  let network : ∀ r, StudyChat.Reply r :=
    λ _, StudyChat.receive (Proc.value (Server.serve Server.no_hits (Server.search Server.v8 Server.configured (Some "cats")))) in
  let st := {| StudyChat.messages := [StudyChat.greeting]; StudyChat.input := "/search cats";
               StudyChat.isLoading := false |} in
  let content :=
    "Here are the top results for " +:+ DQ +:+ "cats" +:+ DQ +:+ ":"
    +:+ LF +:+ LF +:+ "No results found." in
  Proc.value (Server.serve Server.no_hits (Server.search Server.v8 Server.configured (Some "cats")))
  = {| Server.status := 200; Server.body := Server.SearchBody [] |}
  ∧ StudyChat.messages (Proc.final (StudyChat.submit network st))
    = [StudyChat.greeting; StudyChat.user "/search cats"; StudyChat.assistant (JStr content)]
  ∧ includes content "No results found." = true.
Proof.
  intros network st content.
  apply (zero_hits_render_no_results Server.v8 Server.configured (Some "cats") Server.no_hits
           "https://en.wikipedia.org/w/api.php"
           [("action", "query"); ("list", "search"); ("srsearch", "cats"); ("format", "json")]
           {| Server.error_message := None; Server.query_search := Some [] |}
           [StudyChat.greeting] "/search cats" network).
  - reflexivity.
  - reflexivity.
  - reflexivity.
  - reflexivity.
  - intros r. reflexivity.
Defined.

End NoResults.

(* ===================================================================== *)
(** * Properties of the search adapter *)
(* ===================================================================== *)

Section Replace.
Import JS Markup.

Lemma append_assoc (a b c : string) : (a +:+ b) +:+ c = a +:+ (b +:+ c).
Proof. induction a as [|x a IH]; simpl; [done|by rewrite IH]. Qed.

Lemma append_empty_r (a : string) : a +:+ "" = a.
Proof. induction a as [|x a IH]; simpl; [done|by rewrite IH]. Qed.

Lemma length_append (a b : string) :
  String.length (a +:+ b) = (String.length a + String.length b)%nat.
Proof. induction a as [|x a IH]; simpl; [done|by rewrite IH]. Qed.

Section Scan.
Context (re : string → option string) (repl : string).
Hypothesis consuming :
  ∀ s rest, re s = Some rest → (String.length rest < String.length s)%nat.

Lemma replace_scan_fuel (fuel1 fuel2 : nat) (s : string) :
  (String.length s < fuel1)%nat → (String.length s < fuel2)%nat →
  replace_scan fuel1 re repl s = replace_scan fuel2 re repl s.
Proof.
  revert fuel2 s. induction fuel1 as [|f1 IH]; intros [|f2] s H1 H2; try lia.
  simpl. destruct (re s) as [rest|] eqn:Hre.
  - apply consuming in Hre. f_equal. apply IH; lia.
  - destruct s as [|c s']; [done|]. simpl in *. f_equal. apply IH; lia.
Qed.

(** With enough fuel the scan is the unbounded one: it obeys the equation
    of the scan without the bound. *)
Lemma replace_unfold (s : string) :
  replace re repl s =
  match re s with
  | Some rest => repl +:+ replace re repl rest
  | None =>
      match s with
      | "" => ""
      | String c s' => String c (replace re repl s')
      end
  end.
Proof.
  unfold replace at 1. simpl. destruct (re s) as [rest|] eqn:Hre.
  - apply consuming in Hre. f_equal. apply replace_scan_fuel; lia.
  - destruct s as [|c s']; reflexivity.
Qed.
End Scan.

Lemma trimStart_length (s : string) : (String.length (trimStart s) ≤ String.length s)%nat.
Proof.
  induction s as [|c s IH]; simpl; [lia|]. destruct (isWhiteSpace c); simpl; lia.
Qed.

Lemma re_spaces_consuming (s rest : string) :
  re_spaces s = Some rest → (String.length rest < String.length s)%nat.
Proof.
  destruct s as [|c s]; simpl; [done|]. destruct (isWhiteSpace c); [|done].
  intros [= <-]. pose proof (trimStart_length s). lia.
Qed.

Lemma after_literal_length (p s rest : string) :
  after_literal p s = Some rest →
  String.length s = (String.length p + String.length rest)%nat.
Proof.
  revert s. induction p as [|a p IH]; intros s; simpl.
  - by intros [= ->].
  - destruct s as [|b s]; [done|]. destruct (Ascii.eqb b a); [|done].
    intros H%IH. simpl. lia.
Qed.

Lemma after_gt_length (s rest : string) :
  after_gt s = Some rest → (String.length rest < String.length s)%nat.
Proof.
  induction s as [|c s IH]; simpl; [done|].
  destruct (Ascii.eqb c ">").
  - intros [= <-]. lia.
  - intros H%IH. lia.
Qed.

Lemma re_span_tag_consuming (s rest : string) :
  re_span_tag s = Some rest → (String.length rest < String.length s)%nat.
Proof.
  unfold re_span_tag.
  destruct (after_literal "</span" s) as [r|] eqn:H1.
  - intros H%after_gt_length. apply after_literal_length in H1. lia.
  - destruct (after_literal "<span" s) as [r|] eqn:H2; [|done].
    intros H%after_gt_length. apply after_literal_length in H2. lia.
Qed.

End Replace.

Section Snippet.
Import JS Markup.

Abbreviation strip := (replace re_span_tag "").

Lemma strip_unfold (s : string) :
  strip s =
  match re_span_tag s with
  | Some rest => strip rest
  | None => match s with "" => "" | String c s' => String c (strip s') end
  end.
Proof.
  rewrite (replace_unfold re_span_tag "" re_span_tag_consuming s) at 1.
  by destruct (re_span_tag s).
Qed.

Lemma strip_plain (s tail : string) :
  lacks "<" s = true → strip (s +:+ tail) = s +:+ strip tail.
Proof.
  induction s as [|c s IH]; simpl; [done|].
  intros [Hc Hs]%andb_true_iff. rewrite strip_unfold.
  assert (re_span_tag (String c (s +:+ tail)) = None) as ->.
  { unfold re_span_tag. simpl.
    destruct (Ascii.eqb_spec c "<") as [->|]; [done|reflexivity]. }
  by rewrite IH.
Qed.

Lemma after_gt_attributes (a tail : string) :
  lacks ">" a = true → after_gt (a +:+ ">" +:+ tail) = Some tail.
Proof.
  induction a as [|c a IH]; simpl; [done|].
  intros [Hc Hs]%andb_true_iff. destruct (Ascii.eqb c ">"); [done|]. by apply IH.
Qed.

Lemma strip_open (a tail : string) :
  lacks ">" a = true → strip (("<span" +:+ a +:+ ">") +:+ tail) = strip tail.
Proof.
  intros Ha. rewrite strip_unfold.
  assert (re_span_tag (("<span" +:+ a +:+ ">") +:+ tail) = Some tail) as ->; [|done].
  unfold re_span_tag. simpl. rewrite append_assoc. by apply after_gt_attributes.
Qed.

Lemma strip_close (tail : string) : strip ("</span>" +:+ tail) = strip tail.
Proof. by rewrite strip_unfold. Qed.

(** Stripping a rendered snippet leaves its plain text. *)
Lemma strip_render (ps : list Piece) :
  Forall well_formed ps → strip (render ps) = plain_text ps.
Proof.
  induction 1 as [|p ps Hp Hps IH]; simpl; [done|].
  destruct p as [s|a|]; simpl in Hp.
  - rewrite strip_plain by done. by rewrite IH.
  - change (render_piece (OpenSpan a)) with ("<span" +:+ a +:+ ">").
    rewrite strip_open by done. done.
  - change (render_piece CloseSpan) with "</span>".
    by rewrite strip_close.
Qed.

End Snippet.

Section Title.
Import JS Markup.

Abbreviation underscore := (replace re_spaces "_").

Lemma underscore_unfold (s : string) :
  underscore s =
  match s with
  | "" => ""
  | String c s' =>
      if isWhiteSpace c then String "_" (underscore (trimStart s'))
      else String c (underscore s')
  end.
Proof.
  rewrite (replace_unfold re_spaces "_" re_spaces_consuming s) at 1.
  destruct s as [|c s']; simpl; [done|]. by destruct (isWhiteSpace c).
Qed.

(** After the replacement no white space is left. *)
Lemma underscore_solid (s : string) : solid (underscore s) = true.
Proof.
  remember (String.length s) as n eqn:Hn.
  revert s Hn. induction (lt_wf n) as [n _ IH]. intros s ->.
  rewrite underscore_unfold. destruct s as [|c s']; [done|].
  destruct (isWhiteSpace c) eqn:Hc; simpl.
  - apply (IH (String.length (trimStart s'))); [|done].
    pose proof (trimStart_length s'). simpl. lia.
  - rewrite Hc. simpl. apply (IH (String.length s')); [simpl; lia|done].
Qed.

Lemma underscore_word (w tail : string) :
  solid w = true → underscore (w +:+ tail) = w +:+ underscore tail.
Proof.
  induction w as [|c w IH]; simpl; [done|].
  intros [Hc Hw]%andb_true_iff. rewrite underscore_unfold.
  destruct (isWhiteSpace c); [done|]. by rewrite IH.
Qed.

Lemma trimStart_gap (gap tail : string) :
  blank gap = true → trimStart (gap +:+ tail) = trimStart tail.
Proof.
  induction gap as [|c gap IH]; simpl; [done|].
  intros [Hc Hg]%andb_true_iff. rewrite Hc. by apply IH.
Qed.

Lemma trimStart_word (w tail : string) :
  w ≠ "" → solid w = true → trimStart (w +:+ tail) = w +:+ tail.
Proof.
  destruct w as [|c w]; [done|]. simpl. intros _ [Hc _]%andb_true_iff.
  by destruct (isWhiteSpace c).
Qed.

Lemma underscore_gap (gap w tail : string) :
  gap ≠ "" → blank gap = true → w ≠ "" → solid w = true →
  underscore (gap +:+ w +:+ tail) = "_" +:+ underscore (w +:+ tail).
Proof.
  destruct gap as [|c gap]; [done|]. simpl.
  intros _ [Hc Hg]%andb_true_iff Hw Hs. rewrite underscore_unfold, Hc.
  by rewrite trimStart_gap, trimStart_word.
Qed.

Lemma spaced_head (w : string) (rest : list (string * string)) :
  ∃ tail, spaced w rest = w +:+ tail.
Proof.
  destruct rest as [|[gap word] more]; simpl.
  - exists "". by rewrite append_empty_r.
  - by eexists.
Qed.

(** On a title made of words, each gap becomes one underscore. *)
Lemma underscore_spaced (first : string) (rest : list (string * string)) :
  title_words first rest →
  underscore (spaced first rest) = join "_" (first :: rest.*2).
Proof.
  intros [Hfirst Hrest]. revert first Hfirst.
  induction Hrest as [|[gap word] more (Hg & Hb & Hw & Hs) Hmore IH];
    intros first Hfirst.
  - simpl. pose proof (underscore_word first "" Hfirst) as H.
    rewrite append_empty_r in H. rewrite H.
    by rewrite (underscore_unfold ""), append_empty_r.
  - simpl in *. rewrite underscore_word by done.
    destruct (spaced_head word more) as [tail Htail].
    rewrite Htail, underscore_gap by done. rewrite <- Htail.
    rewrite (IH word Hs). simpl. done.
Qed.

Lemma url_safe_append (a b : string) :
  url_safe (a +:+ b) = url_safe a && url_safe b.
Proof. induction a as [|c a IH]; simpl; [done|]. by rewrite IH, andb_assoc. Qed.

Lemma url_safe_encodeChar (c : ascii) : url_safe (encodeChar c) = true.
Proof. destruct c as [[] [] [] [] [] [] [] []]; vm_compute; reflexivity. Qed.

(** The encoded title is made of unreserved characters and [%] only. *)
Lemma url_safe_encodeURIComponent (s : string) : url_safe (encodeURIComponent s) = true.
Proof.
  induction s as [|c s IH]; simpl; [done|].
  by rewrite url_safe_append, url_safe_encodeChar, IH.
Qed.

Lemma unreserved_append (a b : string) :
  unreserved (a +:+ b) = unreserved a && unreserved b.
Proof. induction a as [|c a IH]; simpl; [done|]. by rewrite IH, andb_assoc. Qed.

(** Unreserved words joined by underscores need no escape. *)
Lemma unreserved_join (words : list string) :
  Forall (λ w, unreserved w = true) words → unreserved (join "_" words) = true.
Proof.
  induction 1 as [|w words Hw Hws IH]; [done|].
  destruct words as [|w' words]; simpl in *.
  - done.
  - rewrite unreserved_append, Hw. simpl. exact IH.
Qed.

(** Reading the escape of one code unit gives the code unit back. *)
Lemma percent_decode_encodeChar (c : ascii) (tail : string) :
  percent_decode (encodeChar c +:+ tail) = option_map (String c) (percent_decode tail).
Proof. destruct c as [[] [] [] [] [] [] [] []]; reflexivity. Qed.

(** Reading the encoding of a string gives the string back. *)
Lemma percent_decode_encodeURIComponent (s : string) :
  percent_decode (encodeURIComponent s) = Some s.
Proof.
  induction s as [|c s IH]; [done|].
  change (encodeURIComponent (String c s)) with (encodeChar c +:+ encodeURIComponent s).
  by rewrite percent_decode_encodeChar, IH.
Qed.

(** A string of unreserved characters is its own encoding. *)
Lemma encodeURIComponent_unreserved (s : string) :
  unreserved s = true → encodeURIComponent s = s.
Proof.
  induction s as [|c s IH]; [done|].
  intros [Hc Hs]%andb_true_iff.
  change (encodeURIComponent (String c s)) with (encodeChar c +:+ encodeURIComponent s).
  unfold encodeChar. rewrite Hc, (IH Hs). done.
Qed.

End Title.

Section Normalize.
Import JS Server Markup.

(** C8. The normalized result of a hit keeps the title; its snippet is the
    snippet of the hit without the highlighting tags; its link is
    [https://en.wikipedia.org/wiki/] followed by the percent-encoding of
    the title in which white space has been replaced by underscores.  The
    underscored title has no white space left and, for a title made of
    words separated by white space, is the words joined by underscores.
    Its encoding has only unreserved characters and [%], reads back as the
    underscored title under percent-decoding, and is the underscored title
    itself when that has unreserved characters only.  A hit without
    snippet gets the empty snippet. *)
Theorem normalize_hit (eng : Engine) (t : string) (pieces : list Piece) :
  Forall well_formed pieces →
  let underscored := replace re_spaces "_" t in
  let encoded := encodeURIComponent underscored in
  normalize eng {| hit_title := Some t; hit_snippet := Some (render pieces) |}
  = inr {| Wire.title := t;
           Wire.link := "https://en.wikipedia.org/wiki/" +:+ encoded;
           Wire.snippet := plain_text pieces |}
  ∧ normalize eng {| hit_title := Some t; hit_snippet := None |}
    = inr {| Wire.title := t;
             Wire.link := "https://en.wikipedia.org/wiki/" +:+ encoded;
             Wire.snippet := "" |}
  ∧ solid underscored = true
  ∧ (∀ first rest, title_words first rest → t = spaced first rest →
       underscored = join "_" (first :: rest.*2))
  ∧ url_safe encoded = true
  ∧ percent_decode encoded = Some underscored
  ∧ (unreserved underscored = true → encoded = underscored)
  ∧ (∀ first rest, title_words first rest → t = spaced first rest →
       Forall (λ w, unreserved w = true) (first :: rest.*2) →
       normalize eng {| hit_title := Some t; hit_snippet := None |}
       = inr {| Wire.title := t;
                Wire.link := "https://en.wikipedia.org/wiki/"
                             +:+ join "_" (first :: rest.*2);
                Wire.snippet := "" |}).
Proof.
  intros Hps underscored encoded.
  split; [|split; [|split; [|split; [|split; [|split; [|split]]]]]].
  - unfold normalize. simpl. do 2 f_equal.
    destruct (String.eqb_spec (render pieces) "") as [He|_].
    + by rewrite <- (strip_render pieces Hps), He.
    + by apply strip_render.
  - reflexivity.
  - apply underscore_solid.
  - intros first rest Hw ->. by apply underscore_spaced.
  - apply url_safe_encodeURIComponent.
  - apply percent_decode_encodeURIComponent.
  - apply encodeURIComponent_unreserved.
  - intros first rest Hw -> Hu.
    unfold normalize. cbn [hit_title hit_snippet]. do 3 f_equal.
    rewrite (underscore_spaced first rest Hw).
    apply encodeURIComponent_unreserved, unreserved_join. done.
Qed.

Lemma normalize_hit_witness :
  let t := spaced "Domestic" [("  ", "short-haired"); (" ", "cat")] in
  (normalize v8 {| hit_title := Some t; hit_snippet := Some (render sample_pieces) |}
   = inr {| Wire.title := "Domestic  short-haired cat";
            Wire.link := "https://en.wikipedia.org/wiki/Domestic_short-haired_cat";
            Wire.snippet := "The cat is a small mammal" |})
  ∧ let underscored := replace re_spaces "_" t in
    let encoded := encodeURIComponent underscored in
    normalize v8 {| hit_title := Some t; hit_snippet := Some (render sample_pieces) |}
    = inr {| Wire.title := t;
             Wire.link := "https://en.wikipedia.org/wiki/" +:+ encoded;
             Wire.snippet := plain_text sample_pieces |}
    ∧ normalize v8 {| hit_title := Some t; hit_snippet := None |}
      = inr {| Wire.title := t;
               Wire.link := "https://en.wikipedia.org/wiki/" +:+ encoded;
               Wire.snippet := "" |}
    ∧ solid underscored = true
    ∧ (∀ first rest, title_words first rest → t = spaced first rest →
         underscored = join "_" (first :: rest.*2))
    ∧ url_safe encoded = true
    ∧ percent_decode encoded = Some underscored
    ∧ (unreserved underscored = true → encoded = underscored)
    ∧ (∀ first rest, title_words first rest → t = spaced first rest →
         Forall (λ w, unreserved w = true) (first :: rest.*2) →
         normalize v8 {| hit_title := Some t; hit_snippet := None |}
         = inr {| Wire.title := t;
                  Wire.link := "https://en.wikipedia.org/wiki/"
                               +:+ join "_" (first :: rest.*2);
                  Wire.snippet := "" |}).
Proof.
  intros t. split; [reflexivity|].
  apply (normalize_hit v8 t sample_pieces).
  repeat constructor.
Defined.

(** The reader on links it did not come from: digits of either case are
    read, an escape cut short, a lone continuation octet and an overlong
    lead octet are refused. *)
Example percent_decode_samples :
  percent_decode "Caf%c3%a9_%41%2f" = Some ("Caf" +:+ E_ACUTE +:+ "_A/")
  ∧ percent_decode "100%" = None
  ∧ percent_decode "%C3" = None
  ∧ percent_decode "%A9" = None
  ∧ percent_decode "%C0%80" = None
  ∧ percent_decode "%G1" = None.
Proof. repeat split. Qed.

(** Links of titles that need escapes: reserved characters become [%XX]
    with upper-case digits, a code unit above U+007F the escapes of its
    two UTF-8 octets. *)
Example normalize_reserved_title :
  normalize v8 {| hit_title := Some "C++ (programming language)"; hit_snippet := None |}
  = inr {| Wire.title := "C++ (programming language)";
           Wire.link := "https://en.wikipedia.org/wiki/C%2B%2B_(programming_language)";
           Wire.snippet := "" |}
  ∧ normalize v8 {| hit_title := Some "AC/DC?"; hit_snippet := None |}
    = inr {| Wire.title := "AC/DC?";
             Wire.link := "https://en.wikipedia.org/wiki/AC%2FDC%3F";
             Wire.snippet := "" |}
  ∧ normalize v8 {| hit_title := Some ("Caf" +:+ E_ACUTE +:+ " au lait");
                    hit_snippet := None |}
    = inr {| Wire.title := "Caf" +:+ E_ACUTE +:+ " au lait";
             Wire.link := "https://en.wikipedia.org/wiki/Caf%C3%A9_au_lait";
             Wire.snippet := "" |}.
Proof. repeat split. Qed.

End Normalize.

(* ===================================================================== *)
(** * Further properties of the search endpoint *)
(* ===================================================================== *)

Section SearchEndpoint.
Import JS Server.

Lemma trim_eqb_blank (s : string) : (trim s =? "") = blank s.
Proof.
  destruct (blank s) eqn:Hb.
  - apply trim_empty in Hb. by rewrite Hb.
  - apply eqb_empty_false. intros H%trim_empty. congruence.
Qed.

(** X1. A search whose [q] is absent, empty or made of white space only is
    answered 400 [Missing query parameter q] without an upstream call,
    whether or not the credential is set. *)
Theorem search_blank_query_400 (eng : Engine) (env : Env) (q : option string)
        (world : ∀ u, Outcome u) :
  blank (or_default q "") = true →
  serve world (search eng env q)
  = {| Proc.value := {| status := 400; body := ErrorBody "Missing query parameter q" None |};
       Proc.final := tt; Proc.log := [] |}.
Proof.
  intros Hb. unfold serve, search. by rewrite trim_eqb_blank, Hb.
Qed.

Lemma search_blank_query_400_witness :
  serve no_hits (search v8 configured (Some "   "))
  = {| Proc.value := {| status := 400; body := ErrorBody "Missing query parameter q" None |};
       Proc.final := tt; Proc.log := [] |}.
Proof. apply (search_blank_query_400 v8 configured (Some "   ") no_hits). reflexivity. Defined.

(** X2. A search with a non-blank query on a server without
    [GEMINI_API_KEY] is answered 503 with the guidance worded for quiz
    generation, without an upstream call: the search is gated on the
    credential of the generative service. *)
Theorem search_without_key_503 (eng : Engine) (env : Env) (q : option string)
        (world : ∀ u, Outcome u) :
  blank (or_default q "") = false →
  hasGeminiKey env = false →
  serve world (search eng env q)
  = {| Proc.value :=
         {| status := 503;
            body := ErrorBody "Gemini is not configured"
                      (Some "Add GEMINI_API_KEY to your .env to enable quiz generation.") |};
       Proc.final := tt; Proc.log := [] |}.
Proof.
  intros Hb Hk. unfold serve, search. by rewrite trim_eqb_blank, Hb, Hk.
Qed.

Lemma search_without_key_503_witness :
  serve no_hits (search v8 {| GEMINI_API_KEY := None |} (Some "cats"))
  = {| Proc.value :=
         {| status := 503;
            body := ErrorBody "Gemini is not configured"
                      (Some "Add GEMINI_API_KEY to your .env to enable quiz generation.") |};
       Proc.final := tt; Proc.log := [] |}.
Proof.
  apply (search_without_key_503 v8 {| GEMINI_API_KEY := None |} (Some "cats") no_hits);
    reflexivity.
Defined.

(** X3. The search endpoint calls upstream exactly when the query is not
    blank and the credential is set; it then makes one call, to the
    encyclopedia search with the trimmed query as [srsearch], whatever the
    call returns. *)
Theorem search_requests (eng : Engine) (env : Env) (q : option string)
        (world : ∀ u, Outcome u) :
  Proc.requests (serve world (search eng env q))
  = if blank (or_default q "") || negb (hasGeminiKey env) then []
    else [wikipedia_search (trim (or_default q ""))].
Proof.
  unfold serve, search. rewrite trim_eqb_blank.
  destruct (blank (or_default q "")); [done|].
  destruct (hasGeminiKey env); [|done]. simpl.
  unfold Proc.requests, wikipedia_search. simpl.
  destruct (world _) as [e|ok [e|data]]; simpl; [done|done|].
  destruct ok; simpl; [|done].
  destruct (query_search data) as [items|]; simpl; [|done].
  by destruct (normalize_all eng items).
Qed.

Lemma or_default_nonempty (s : option string) (d : string) : d ≠ "" → or_default s d ≠ "".
Proof.
  intros Hd. destruct s as [x|]; simpl; [|done].
  destruct (String.eqb_spec x ""); done.
Qed.

Lemma normalize_all_titles (eng : Engine) (items : list Hit) (rs : list Wire.SearchResult) :
  normalize_all eng items = inr rs →
  hit_title <$> items = Some <$> (Wire.title <$> rs).
Proof.
  revert rs. induction items as [|item items IH]; intros rs H.
  - by injection H as <-.
  - cbn [normalize_all] in H.
    destruct (normalize eng item) as [e|r] eqn:Hr; [done|].
    destruct (normalize_all eng items) as [e|rs'] eqn:Hn; [done|].
    injection H as <-. rewrite !fmap_cons. f_equal; [|by apply IH].
    unfold normalize in Hr. destruct (hit_title item); [|done].
    by injection Hr as <-.
Qed.

Lemma normalize_all_untitled (eng : Engine) (items : list Hit) :
  None ∈ (hit_title <$> items) →
  ∃ e, normalize_all eng items = inl e.
Proof.
  induction items as [|item items IH]; simpl.
  - by intros ?%elem_of_nil.
  - intros [H|H]%elem_of_cons.
    + unfold normalize. rewrite <- H. by eexists.
    + destruct (normalize eng item) as [e|r]; [by eexists|].
      destruct (IH H) as [e ->]. by eexists.
Qed.

Lemma normalize_all_throws (eng : Engine) (items : list Hit) (e : Thrown) :
  normalize_all eng items = inl e → None ∈ (hit_title <$> items).
Proof.
  induction items as [|item items IH]; intros H; [done|].
  cbn [normalize_all] in H. rewrite fmap_cons.
  destruct (normalize eng item) as [e'|r] eqn:Hr.
  - unfold normalize in Hr. destruct (hit_title item); [done|]. by left.
  - right. apply IH. by destruct (normalize_all eng items).
Qed.

(** X4. When the upstream search succeeds with a list of hits: if every
    hit has a title the answer is 200 with one result per hit, in order,
    with the titles of the hits; if one hit lacks a title the whole search
    is answered 500. *)
Theorem search_results_follow_hits (eng : Engine) (env : Env) (q : option string)
        (world : ∀ u, Outcome u) (data : SearchData) (items : list Hit) :
  blank (or_default q "") = false →
  hasGeminiKey env = true →
  world (wikipedia_search (trim (or_default q ""))) = FetchResponds true (inr data) →
  query_search data = Some items →
  let r := Proc.value (serve world (search eng env q)) in
  (None ∉ (hit_title <$> items) →
     ∃ rs, r = {| status := 200; body := SearchBody rs |}
           ∧ hit_title <$> items = Some <$> (Wire.title <$> rs))
  ∧ (None ∈ (hit_title <$> items) → status r = 500%nat).
Proof.
  intros Hb Hk Hw Hd r. subst r. unfold serve, search.
  rewrite trim_eqb_blank, Hb, Hk. simpl. unfold search_try.
  cbn [Proc.bind Proc.run mbind proc_bind Proc.value].
  unfold wikipedia_search in Hw. rewrite Hw. cbn [negb]. rewrite Hd.
  destruct (normalize_all eng items) as [e|rs] eqn:Hn; simpl; split.
  - intros Hno. destruct Hno. by apply (normalize_all_throws eng items e).
  - done.
  - intros _. exists rs. split; [done|]. by apply (normalize_all_titles eng).
  - intros H. destruct (normalize_all_untitled eng items H) as [e He]. congruence.
Qed.

End SearchEndpoint.

(* ===================================================================== *)
(** * Further properties of the error classifier *)
(* ===================================================================== *)

Section ErrorMessages.
Import JS Server.

Lemma classify_cases (raw : string) :
  classify raw = invalid_credential_guidance
  ∨ classify raw = quota_exceeded_guidance
  ∨ classify raw = rate_limit_guidance
  ∨ (classify raw = raw ∧ find (fires (toLowerCase raw)) rules = None).
Proof.
  unfold classify, rules. simpl.
  destruct (fires (toLowerCase raw) credential_rule); [by left|].
  destruct (fires (toLowerCase raw) quota_rule); [by right; left|].
  destruct (fires (toLowerCase raw) rate_rule); [by right; right; left|].
  by right; right; right.
Qed.

(** The classifier never returns the empty string. *)
Lemma createErrorMessage_nonempty (error : Thrown) : createErrorMessage error ≠ "".
Proof.
  assert (or_default (message error) "Gemini API request failed." ≠ "") as Hraw
    by (by apply or_default_nonempty).
  rewrite createErrorMessage_classify.
  destruct (classify_cases (or_default (message error) "Gemini API request failed."))
    as [H|[H|[H|[H _]]]]; by rewrite H.
Qed.

(** X11. The classifier never returns the empty string, and classifying
    its own result again changes nothing. *)
Theorem createErrorMessage_stable (error : Thrown) :
  createErrorMessage error ≠ ""
  ∧ createErrorMessage (Error (Some (createErrorMessage error))) = createErrorMessage error.
Proof.
  split; [apply createErrorMessage_nonempty|].
  assert (or_default (message error) "Gemini API request failed." ≠ "") as Hraw
    by (by apply or_default_nonempty).
  rewrite !createErrorMessage_classify.
  set (raw := or_default (message error) "Gemini API request failed.") in *.
  destruct (classify_cases raw) as [H|[H|[H|[H Hnone]]]]; rewrite H;
    [reflexivity|reflexivity|reflexivity|].
  simpl. rewrite (eqb_empty_false _ Hraw).
  unfold classify. by rewrite Hnone.
Qed.

Lemma toLowerCase_append (a b : string) :
  toLowerCase (a +:+ b) = toLowerCase a +:+ toLowerCase b.
Proof. induction a as [|c a IH]; simpl; [done|by rewrite IH]. Qed.

Lemma includes_middle (a t b : string) : includes (a +:+ t +:+ b) t = true.
Proof. apply includes_app_l, includes_here, startsWith_app. Qed.

Lemma append_nonempty (a t b : string) : t ≠ "" → a +:+ t +:+ b ≠ "".
Proof. intros Ht. destruct a; simpl; [|done]. by destruct t. Qed.

(** X12. An upstream message that contains [permission], [unauthorized]
    or [api key] in any letter case, anywhere, gets the invalid-credential
    guidance, whatever else it contains. *)
Theorem createErrorMessage_any_case (a T b : string) :
  toLowerCase T ∈ triggers credential_rule →
  createErrorMessage (Error (Some (a +:+ T +:+ b))) = invalid_credential_guidance.
Proof.
  intros HT.
  assert (T ≠ "") as HTne.
  { intros ->. apply list_elem_of_In in HT. simpl in HT.
    destruct HT as [H|[H|[H|[]]]]; discriminate H. }
  assert (fires (toLowerCase (a +:+ T +:+ b)) credential_rule = true) as Hf.
  { unfold fires. apply existsb_exists. exists (toLowerCase T).
    split; [by apply list_elem_of_In|].
    rewrite !toLowerCase_append. apply includes_middle. }
  rewrite createErrorMessage_classify. simpl.
  rewrite (eqb_empty_false _ (append_nonempty a T b HTne)).
  unfold classify, rules. simpl find. by rewrite Hf.
Qed.

Lemma createErrorMessage_any_case_witness :
  createErrorMessage (Error (Some ("Quota note: " +:+ "API Key" +:+ " not valid.")))
  = invalid_credential_guidance.
Proof.
  apply (createErrorMessage_any_case "Quota note: " "API Key" " not valid.").
  simpl. do 2 apply list_elem_of_further. apply list_elem_of_here.
Defined.

End ErrorMessages.

(* ===================================================================== *)
(** * Further properties of the chat and quiz endpoints *)
(* ===================================================================== *)

Section Endpoints.
Import JS Server.

(** X7. The client of the generative service exists exactly when
    [GEMINI_API_KEY] is set and not empty, which is what [hasGeminiKey]
    tests, and it holds the trimmed key; so a key of white space only
    counts as configured and gives a client with an empty key. *)
Theorem genAI_client (env : Env) (client : GoogleGenerativeAI) :
  (genAI env = Some client ↔
   ∃ k, GEMINI_API_KEY env = Some k ∧ k ≠ "" ∧ client = {| apiKey := trim k |})
  ∧ (hasGeminiKey env = negb (bool_decide (genAI env = None)))
  ∧ (∀ k, k ≠ "" → blank k = true →
       genAI {| GEMINI_API_KEY := Some k |} = Some {| apiKey := "" |}).
Proof.
  split; [|split].
  - unfold genAI, geminiApiKey, hasGeminiKey.
    destruct (GEMINI_API_KEY env) as [k|]; simpl.
    + destruct (String.eqb_spec k "") as [->|Hk]; simpl.
      * split; [done|]. intros (k & [= <-] & Hk & _). done.
      * split.
        -- intros [= <-]. by exists k.
        -- intros (k' & [= <-] & _ & ->). done.
    + split; [done|]. by intros (k & ? & _).
  - unfold genAI, geminiApiKey, hasGeminiKey.
    destruct (GEMINI_API_KEY env) as [k|]; simpl; [|done].
    by destruct (String.eqb_spec k "").
  - intros k Hk Hb. unfold genAI, geminiApiKey, hasGeminiKey. simpl.
    rewrite (eqb_empty_false _ Hk). simpl. apply trim_empty in Hb. by rewrite Hb.
Qed.

Lemma genAI_hasGeminiKey (env : Env) (client : GoogleGenerativeAI) :
  genAI env = Some client → hasGeminiKey env = true.
Proof. unfold genAI. by destruct (hasGeminiKey env). Qed.

Lemma hasGeminiKey_genAI (env : Env) :
  hasGeminiKey env = true → ∃ client, genAI env = Some client.
Proof.
  unfold genAI, geminiApiKey, hasGeminiKey.
  destruct (GEMINI_API_KEY env) as [k|]; [|done]. simpl.
  intros ->. simpl. by eexists.
Qed.

(** X8. The chat endpoint answers 200 with the text [t] exactly when the
    credential is set, the body has a [messages] array, and the upstream
    call for the conversation of that array returned [t]. *)
Theorem chat_answers_200_iff (eng : Engine) (env : Env) (req : ChatRequest)
        (world : ∀ u, Outcome u) (t : string) :
  Proc.value (serve world (chat eng env req)) = {| status := 200; body := ChatBody t |}
  ↔ ∃ client ms,
      genAI env = Some client ∧ messages req = Some ms
      ∧ world (GenerateContent client chat_model (Contents (buildConversation ms true)))
        = GeneratedText t.
Proof.
  unfold serve, chat, chat_try.
  destruct (hasGeminiKey env) eqn:Hk; simpl.
  - destruct (genAI env) as [client|] eqn:Hc; simpl.
    + destruct (messages req) as [ms|] eqn:Hm; simpl.
      * fold chat_model.
        destruct (world (GenerateContent client chat_model _)) as [t'|e] eqn:Hw; simpl.
        -- split.
           ++ intros [= <-]. by exists client, ms.
           ++ intros (c & ms' & [= <-] & [= <-] & Hw'). rewrite Hw in Hw'. by injection Hw' as <-.
        -- split; [done|].
           intros (c & ms' & [= <-] & [= <-] & Hw'). rewrite Hw in Hw'. done.
      * split; [done|]. by intros (c & ms' & _ & ? & _).
    + split; [done|]. by intros (c & ms' & ? & _).
  - split; [done|]. intros (c & ms' & Hc%genAI_hasGeminiKey & _). congruence.
Qed.

(** X9. With the credential set, a chat request whose body has no
    [messages] array is answered 500 with the classified [TypeError], and
    nothing is called upstream. *)
Theorem chat_without_messages (eng : Engine) (env : Env) (world : ∀ u, Outcome u) :
  hasGeminiKey env = true →
  serve world (chat eng env {| messages := None |})
  = {| Proc.value :=
         {| status := 500;
            body := ErrorBody "Failed to get response from Gemini"
                      (Some (createErrorMessage
                               (Error (Some (null_read_message eng "undefined" "forEach"))))) |};
       Proc.final := tt; Proc.log := [] |}.
Proof.
  intros Hk. destruct (hasGeminiKey_genAI env Hk) as [client Hc].
  unfold serve, chat, chat_try. by rewrite Hk, Hc.
Qed.

Lemma chat_without_messages_witness :
  serve no_hits (chat v8 configured {| messages := None |})
  = {| Proc.value :=
         {| status := 500;
            body := ErrorBody "Failed to get response from Gemini"
                      (Some (createErrorMessage
                               (Error (Some (null_read_message v8 "undefined" "forEach"))))) |};
       Proc.final := tt; Proc.log := [] |}.
Proof. apply (chat_without_messages v8 configured no_hits). reflexivity. Defined.

(** X10. With the credential set the quiz endpoint makes one upstream
    call in JSON mode, for every topic, also an absent or empty one: the
    prompt starts with the fixed instructions and contains [Topic: ]
    followed by the topic as a template prints it. *)
Theorem generate_quiz_call (eng : Engine) (env : Env) (topic : option string)
        (world : ∀ u, Outcome u) (client : GoogleGenerativeAI) :
  genAI env = Some client →
  Proc.requests (serve world (generate_quiz eng env topic))
  = [GenerateContent client quiz_model (Prompt (quiz_prompt topic))]
  ∧ startsWith (quiz_prompt topic) QUIZ_INSTRUCTIONS = true
  ∧ includes (quiz_prompt topic) ("Topic: " +:+ template topic) = true.
Proof.
  intros Hc. split; [|split].
  - unfold serve, generate_quiz, generate_quiz_try. rewrite Hc.
    fold quiz_model. fold (quiz_prompt topic). unfold Proc.requests.
    cbn [Proc.run Proc.bind mbind proc_bind Proc.log fmap list_fmap snd].
    destruct (world _) as [t|e]; simpl; [|done].
    by destruct (JSON_parse eng t).
  - apply startsWith_app.
  - unfold quiz_prompt. do 3 apply includes_app_l.
    rewrite <- append_assoc. apply includes_here, startsWith_app.
Qed.

(** What the quiz endpoint answers, by the outcome of its call. *)
Lemma generate_quiz_answer (eng : Engine) (env : Env) (topic : option string)
      (world : ∀ u, Outcome u) (client : GoogleGenerativeAI) :
  genAI env = Some client →
  Proc.value (serve world (generate_quiz eng env topic))
  = match world (GenerateContent client quiz_model (Prompt (quiz_prompt topic))) with
    | GeneratedText t =>
        match JSON_parse eng t with
        | inr d => {| status := 200; body := QuizBody d |}
        | inl e => {| status := 500;
                      body := ErrorBody "Failed to generate quiz" (Some (createErrorMessage e)) |}
        end
    | GenerateThrows e =>
        {| status := 500;
           body := ErrorBody "Failed to generate quiz" (Some (createErrorMessage e)) |}
    end.
Proof.
  intros Hc. unfold serve, generate_quiz, generate_quiz_try. rewrite Hc.
  fold quiz_model. fold (quiz_prompt topic).
  cbn [Proc.run Proc.bind mbind proc_bind Proc.value].
  destruct (world _) as [t|e]; simpl; [|done].
  by destruct (JSON_parse eng t).
Qed.

End Endpoints.

(* ===================================================================== *)
(** * The answers of the endpoints and the turns of a conversation *)
(* ===================================================================== *)

Section Answers.
Import JS Server.

Lemma error_answer_intro (st : nat) (e : string) (d : string) :
  st ≠ 200%nat → e ≠ "" → d ≠ "" →
  error_answer {| status := st; body := ErrorBody e (Some d) |}.
Proof. intros Hs He Hd. split; [done|]. exists e, (Some d). eauto. Qed.

(** X6. Every answer sent by one of the three route handlers, that is, to
    a request that the middleware ([cors()], [express.json()]) has passed
    on with its parsed body, is either the success of that route with
    status 200, or an error with a non-empty error text and (except for
    400) non-empty details; the chat handler answers 200, 500 or 503, the
    search handler 200, 400, 500 or 503, and the quiz handler 200 or 500
    only.  What the body parser answers by itself to a body it refuses
    (400 for malformed JSON, 413 for an oversized body) never reaches a
    handler and is not covered. *)
Theorem handler_answers_well_formed (eng : Engine) (env : Env) (world : ∀ u, Outcome u)
        (req : ChatRequest) (q : option string) (topic : option string) :
  let rc := Proc.value (serve world (chat eng env req)) in
  let rs := Proc.value (serve world (search eng env q)) in
  let rq := Proc.value (serve world (generate_quiz eng env topic)) in
  ((∃ t, rc = {| status := 200; body := ChatBody t |})
   ∨ (error_answer rc ∧ (status rc = 500 ∨ status rc = 503)%nat))
  ∧ ((∃ l, rs = {| status := 200; body := SearchBody l |})
     ∨ (error_answer rs ∧ (status rs = 400 ∨ status rs = 500 ∨ status rs = 503)%nat))
  ∧ ((∃ d, rq = {| status := 200; body := QuizBody d |})
     ∨ (error_answer rq ∧ status rq = 500%nat)).
Proof.
  pose proof createErrorMessage_nonempty as Hmsg.
  assert (∀ o, or_default o "Search request failed" ≠ "") as Hdef
    by (intros o; by apply or_default_nonempty).
  intros rc rs rq. split; [|split].
  - subst rc. unfold serve, chat, chat_try.
    destruct (hasGeminiKey env); simpl;
      [destruct (genAI env); simpl;
       [destruct (messages req); simpl; [destruct (world _); simpl|]|]|];
      first [ by left; eexists
            | right; split; [by apply error_answer_intro|by (left + right)] ].
  - subst rs. unfold serve, search, search_try.
    destruct (trim (or_default q "") =? ""); simpl.
    { right. split; [|by left]. split; [done|]. by exists "Missing query parameter q", None. }
    destruct (hasGeminiKey env); simpl.
    2:{ right. split; [by apply error_answer_intro|by right; right]. }
    destruct (world _) as [e|[|] [e|data]]; simpl;
      [| |destruct (query_search data) as [items|]; simpl;
          [destruct (normalize_all eng items); simpl|]| |];
      first [ by left; eexists
            | right; split; [|by right; left];
              apply error_answer_intro; [done|done|];
              first [apply Hdef | apply (Hdef (Some _))] ].
  - subst rq. unfold serve, generate_quiz, generate_quiz_try.
    destruct (genAI env); simpl;
      [destruct (world _) as [t|e]; simpl; [destruct (JSON_parse eng t); simpl|]|];
      first [ by left; eexists
            | right; split; [by apply error_answer_intro|done] ].
Qed.

(** X5. When the upstream request of a search rejects, or its body is not
    JSON, the answer is 500 [Failed to perform search] whose details are
    the message of the error as it is (the default text when it has
    none): the message is not classified. *)
Theorem search_failure_details_raw (eng : Engine) (env : Env) (q : option string)
        (world : ∀ u, Outcome u) (ok : bool) (e : Thrown) :
  blank (or_default q "") = false →
  hasGeminiKey env = true →
  world (wikipedia_search (trim (or_default q ""))) = FetchRejects e
  ∨ world (wikipedia_search (trim (or_default q ""))) = FetchResponds ok (inl e) →
  Proc.value (serve world (search eng env q))
  = {| status := 500;
       body := ErrorBody "Failed to perform search"
                 (Some (or_default (message e) "Search request failed")) |}
  ∧ (∀ m, message e = Some m → m ≠ "" →
       body (Proc.value (serve world (search eng env q)))
       = ErrorBody "Failed to perform search" (Some m)).
Proof.
  intros Hb Hk Hw.
  assert (Proc.value (serve world (search eng env q))
          = {| status := 500;
               body := ErrorBody "Failed to perform search"
                         (Some (or_default (message e) "Search request failed")) |}) as Hv.
  { unfold serve, search, search_try. rewrite trim_eqb_blank, Hb, Hk. simpl.
    unfold wikipedia_search in Hw. by destruct Hw as [-> | ->]. }
  split; [done|]. intros m Hm Hne. rewrite Hv, Hm. simpl.
  by rewrite (eqb_empty_false _ Hne).
Qed.

End Answers.

Section Turns.
Import JS Server.

Lemma kept_truthy (ms : list (option Wire.Message)) :
  Forall (λ m, truthy (Wire.content m) = true) (kept ms).
Proof.
  induction ms as [|[m|] ms IH]; simpl; [done| |done].
  destruct (truthy (Wire.content m)) eqn:Hm; [by constructor|done].
Qed.

(** X14. Every turn of a built conversation has the user or the model
    role and exactly one part, whose text is truthy: no empty text is
    sent. *)
Theorem buildConversation_sendable (ms : list (option Wire.Message)) (includePrompt : bool) :
  Forall sendable (buildConversation ms includePrompt).
Proof.
  rewrite buildConversation_kept. apply Forall_app. split.
  - destruct includePrompt; [|done]. constructor; [|done].
    split; [by left|]. by eexists.
  - apply Forall_fmap. eapply Forall_impl; [apply kept_truthy|].
    intros m Hm. split.
    + unfold turn_of. simpl. destruct (decide _); [by right|by left].
    + by eexists.
Qed.

(** X15. The conversation of a concatenated transcript is the
    conversation of the first part followed by the conversation, without
    instruction, of the second; a conversation has at most one turn per
    entry besides the instruction. *)
Theorem buildConversation_app (a b : list (option Wire.Message)) (includePrompt : bool) :
  buildConversation (a ++ b) includePrompt
  = buildConversation a includePrompt ++ buildConversation b false
  ∧ (length (buildConversation a includePrompt)
     ≤ (if includePrompt then 1 else 0) + length a)%nat.
Proof.
  rewrite !buildConversation_kept, kept_app, fmap_app. split.
  - by rewrite app_assoc.
  - rewrite length_app, length_fmap. pose proof (kept_length a).
    destruct includePrompt; simpl; lia.
Qed.

End Turns.


(* ===================================================================== *)
(** * Further properties of the chat panel *)
(* ===================================================================== *)

Section ChatPanelMore.
Import JS StudyChat.

(** X16. A submission whose input is blank, or made while a request is in
    flight, does nothing: the state is unchanged and no request is
    sent. *)
Theorem submit_guard (st : State) (network : ∀ r, Reply r) :
  blank (input st) = true ∨ isLoading st = true →
  submit network st = {| Proc.value := tt; Proc.final := st; Proc.log := [] |}.
Proof.
  intros H. unfold submit, handleSubmit. rewrite trim_eqb_blank.
  destruct H as [-> | ->]; [done|]. by rewrite orb_true_r.
Qed.

Lemma submit_guard_witness :
  submit (answering "hello") {| messages := [greeting]; input := "  "; isLoading := false |}
  = {| Proc.value := tt;
       Proc.final := {| messages := [greeting]; input := "  "; isLoading := false |};
       Proc.log := [] |}.
Proof. apply submit_guard. left. reflexivity. Defined.

(** The run of an accepted submission, on either branch. *)
Lemma submit_run (st : State) (network : ∀ r, Reply r) :
  blank (input st) = false →
  isLoading st = false →
  submit network st
  = {| Proc.value := tt;
       Proc.final :=
         {| messages :=
              messages st
              ++ [user (input st);
                  if isSearch (input st)
                  then search_entry (searchQuery (input st)) (network (request_of st))
                  else chat_entry (network (request_of st))];
            input := ""; isLoading := false |};
       Proc.log := [({| messages := messages st ++ [user (input st)];
                        input := ""; isLoading := true |}, request_of st)] |}.
Proof.
  intros Hb Hl. destruct st as [T M l]. simpl in *. subst l.
  assert (trim M ≠ "") as Hne by (intros H%trim_empty; congruence).
  unfold request_of, searchQuery, isSearch. cbn [input messages].
  destruct (startsWith (toLowerCase (trim M)) "/search ") eqn:Hs.
  - pose proof (search_query_nonempty M Hs) as Hq.
    unfold submit, handleSubmit. cbn [input isLoading messages].
    rewrite (eqb_empty_false _ Hne), Hs. cbn [orb]. unfold search_branch.
    rewrite (eqb_empty_false _ Hq).
    cbn [Proc.run Proc.bind mbind proc_bind].
    destruct (network _) as [e|[|] [e|data]]; simpl;
      unfold setMessages, setInput, setIsLoading; simpl;
      rewrite <- ?app_assoc; reflexivity.
  - unfold submit, handleSubmit. cbn [input isLoading messages].
    rewrite (eqb_empty_false _ Hne), Hs. cbn [orb]. unfold chat_branch.
    rewrite copy_messages.
    cbn [Proc.run Proc.bind mbind proc_bind].
    destruct (network _) as [e|[|] [e|data]]; simpl;
      unfold setMessages, setInput, setIsLoading; simpl;
      rewrite <- ?app_assoc; reflexivity.
Qed.

(** X17. Every accepted submission, chat or search, whatever the network
    does: sends exactly one request, in a state where the user entry is
    appended, the input cleared and [isLoading] set; and ends with exactly
    one assistant entry after the user entry, the input empty and
    [isLoading] cleared. *)
Theorem submit_settles (st : State) (network : ∀ r, Reply r) :
  blank (input st) = false →
  isLoading st = false →
  let r := submit network st in
  (∃ content, messages (Proc.final r)
              = messages st ++ [user (input st); assistant content])
  ∧ input (Proc.final r) = ""
  ∧ isLoading (Proc.final r) = false
  ∧ Proc.log r = [({| messages := messages st ++ [user (input st)];
                      input := ""; isLoading := true |}, request_of st)].
Proof.
  intros Hb Hl r. subst r. rewrite (submit_run st network Hb Hl). simpl.
  split; [|done].
  destruct (isSearch (input st)).
  - destruct (network _) as [e|[|] [e|data]]; by eexists.
  - destruct (network _) as [e|[|] [e|data]]; by eexists.
Qed.

Lemma submit_settles_witness :
  let st := {| messages := [greeting]; input := "/search cats"; isLoading := false |} in
  let r := submit offline st in
  (∃ content, messages (Proc.final r)
              = messages st ++ [user (input st); assistant content])
  ∧ input (Proc.final r) = ""
  ∧ isLoading (Proc.final r) = false
  ∧ Proc.log r = [({| messages := messages st ++ [user (input st)];
                      input := ""; isLoading := true |}, request_of st)].
Proof.
  intros st. apply (submit_settles st offline); reflexivity.
Defined.

Lemma blank_false_nonempty (M : string) : blank M = false → M ≠ "".
Proof. by intros H ->. Qed.

(** What the chat endpoint answers to the request of the panel. *)
Lemma chat_backend_without_key (eng : Server.Engine) (env : Server.Env)
      (world : ∀ u, Server.Outcome u) (r : Request) :
  Server.hasGeminiKey env = false →
  chat_backend eng env world r
  = FetchResponds false
      (inr {| details := Some "Add GEMINI_API_KEY to your .env to enable chat.";
              error := Some "Gemini is not configured";
              results := None; response := JUndefined |}).
Proof. intros Hk. unfold chat_backend, Server.chat. by rewrite Hk. Qed.

Lemma chat_backend_with_key (eng : Server.Engine) (env : Server.Env)
      (world : ∀ u, Server.Outcome u) (client : Server.GoogleGenerativeAI)
      (u m : string) (ms : list Wire.Message) :
  Server.genAI env = Some client →
  chat_backend eng env world {| url := u; method := m; body := Some ms |}
  = match world (Server.GenerateContent client Server.chat_model
                   (Server.Contents (Server.buildConversation (map Some ms) true))) with
    | Server.GeneratedText t =>
        FetchResponds true
          (inr {| details := None; error := None; results := None; response := JStr t |})
    | Server.GenerateThrows e =>
        FetchResponds false
          (inr {| details := Some (Server.createErrorMessage e);
                  error := Some "Failed to get response from Gemini";
                  results := None; response := JUndefined |})
    end.
Proof.
  intros Hc. unfold chat_backend, Server.chat, Server.chat_try.
  rewrite (genAI_hasGeminiKey env client Hc), Hc.
  unfold Server.serve, Server.chat_model. simpl.
  destruct (world _); reflexivity.
Qed.

(** X18. The chat panel in front of a server without credential: a chat
    message sends one request and ends with the apology entry that quotes
    the guidance to add [GEMINI_API_KEY]. *)
Theorem chat_without_key_end_to_end
        (eng : Server.Engine) (env : Server.Env) (world : ∀ u, Server.Outcome u)
        (T : list Wire.Message) (M : string) :
  Server.hasGeminiKey env = false →
  blank M = false →
  isSearch M = false →
  submit (chat_backend eng env world) {| messages := T; input := M; isLoading := false |}
  = {| Proc.value := tt;
       Proc.final :=
         {| messages :=
              T ++ [user M; apology "Add GEMINI_API_KEY to your .env to enable chat."];
            input := ""; isLoading := false |};
       Proc.log :=
         [({| messages := T ++ [user M]; input := ""; isLoading := true |},
           {| url := "/api/chat"; method := "POST"; body := Some (T ++ [user M]) |})] |}.
Proof.
  intros Hk Hb Hs. rewrite submit_run by done.
  unfold request_of. cbn [input messages]. rewrite Hs.
  by rewrite chat_backend_without_key.
Qed.

Lemma kept_present (T : list Wire.Message) (M : string) :
  M ≠ "" →
  Server.kept (map Some (T ++ [user M])) = Server.kept (map Some T) ++ [user M].
Proof.
  intros HM. rewrite map_app, kept_app. f_equal. simpl.
  by rewrite (eqb_empty_false _ HM).
Qed.

(** X19. The chat panel in front of a server with credential: the last
    turn of the conversation sent upstream is the message just typed, as a
    user turn; the panel ends with the generated text as assistant entry,
    or with the apology quoting the classified upstream error. *)
Theorem chat_with_key_end_to_end
        (eng : Server.Engine) (env : Server.Env) (world : ∀ u, Server.Outcome u)
        (client : Server.GoogleGenerativeAI) (T : list Wire.Message) (M : string) :
  Server.genAI env = Some client →
  blank M = false →
  isSearch M = false →
  let conversation := Server.buildConversation (map Some (T ++ [user M])) true in
  let call := Server.GenerateContent client Server.chat_model (Server.Contents conversation) in
  last conversation
  = Some {| Server.role := "user"; Server.parts := [{| Server.text := JStr M |}] |}
  ∧ messages (Proc.final (submit (chat_backend eng env world)
                            {| messages := T; input := M; isLoading := false |}))
    = T ++ [user M;
            match world call with
            | Server.GeneratedText t => assistant (JStr t)
            | Server.GenerateThrows e => apology (Server.createErrorMessage e)
            end].
Proof.
  intros Hc Hb Hs conversation call.
  pose proof (blank_false_nonempty M Hb) as HM.
  split.
  - unfold conversation. rewrite buildConversation_kept, kept_present by done.
    rewrite fmap_app, app_assoc.
    change (Server.turn_of <$> [user M]) with [Server.turn_of (user M)].
    by rewrite last_snoc.
  - rewrite submit_run by done. unfold request_of. cbn [input messages Proc.final].
    rewrite Hs, (chat_backend_with_key eng env world client _ _ _ Hc).
    fold conversation. fold call.
    destruct (world call) as [t|e]; [done|].
    unfold chat_entry, failure_text. cbn [details].
    pose proof (createErrorMessage_nonempty e) as Hmsg.
    simpl. by rewrite (eqb_empty_false _ Hmsg).
Qed.

End ChatPanelMore.

(* ===================================================================== *)
(** * The search command of the chat panel *)
(* ===================================================================== *)

Section SearchCommand.
Import JS StudyChat Markup.

Lemma trimEnd_blank_tail (s trail : string) :
  blank trail = true → trimEnd (s +:+ trail) = trimEnd s.
Proof.
  intros Ht. induction s as [|c s IH]; simpl.
  - by apply trimEnd_empty.
  - by rewrite IH.
Qed.

Lemma trimEnd_keeps_front (a b : string) :
  trimEnd b ≠ "" → trimEnd (a +:+ b) = a +:+ trimEnd b.
Proof.
  intros Hb. induction a as [|c a IH]; simpl; [done|].
  rewrite IH. destruct (a +:+ trimEnd b) eqn:Hab; [|done].
  destruct a; simpl in Hab; [done|discriminate].
Qed.

Lemma lowerChar_slash (c : ascii) : lowerChar c = "/"%char → c = "/"%char.
Proof. destruct c as [[] [] [] [] [] [] [] []]; vm_compute; congruence. Qed.

Lemma toLowerCase_length (s : string) : String.length (toLowerCase s) = String.length s.
Proof. induction s as [|c s IH]; simpl; [done|by rewrite IH]. Qed.

(** X20. An input made of [/search] in any letter case, a space, further
    white space, a query without white space at its ends, with white space
    around the whole, is recognised as a search and its query is
    extracted exactly. *)
Theorem search_command (lead P gap q trail : string) :
  blank lead = true → blank gap = true → blank trail = true →
  toLowerCase P = "/search" →
  q ≠ "" → trimStart q = q → trimEnd q = q →
  let input := lead +:+ P +:+ String " " gap +:+ q +:+ trail in
  isSearch input = true ∧ searchQuery input = q.
Proof.
  intros Hlead Hgap Htrail HP Hq Hqs Hqe input.
  assert (String.length P = 7%nat) as Hlen.
  { by rewrite <- toLowerCase_length, HP. }
  assert (trim input = P +:+ String " " gap +:+ q) as Ht.
  { assert (∃ P', P = String "/" P') as [P' ->].
    { destruct P as [|c P']; [done|]. simpl in HP. injection HP as Hc _.
      apply lowerChar_slash in Hc as ->. by eexists. }
    assert (∀ X, String "/" P' +:+ String " " gap +:+ X
                 = (String "/" P' +:+ String " " gap) +:+ X) as Hr.
    { intros X. by rewrite append_assoc. }
    unfold trim, input. rewrite (trimStart_gap lead _ Hlead).
    rewrite (Hr (q +:+ trail)), (Hr q).
    assert (trimStart ((String "/" P' +:+ String " " gap) +:+ q +:+ trail)
            = (String "/" P' +:+ String " " gap) +:+ q +:+ trail) as -> by reflexivity.
    rewrite trimEnd_keeps_front; rewrite (trimEnd_blank_tail q trail Htrail), Hqe; done. }
  assert (∀ X, P +:+ String " " gap +:+ X = (P +:+ " ") +:+ gap +:+ X) as Hsp.
  { intros X. by rewrite append_assoc. }
  assert (isSearch input = true) as Hs.
  { unfold isSearch. rewrite Ht, Hsp, !toLowerCase_append, HP. apply startsWith_app. }
  split; [done|]. unfold searchQuery. rewrite Hs, Ht, Hsp.
  replace 8%nat with (String.length (P +:+ " "))
    by (rewrite length_append, Hlen; reflexivity).
  rewrite slice_app. unfold trim. by rewrite trimStart_gap, Hqs.
Qed.

Lemma search_command_witness :
  let input := "  " +:+ "/Search" +:+ String " " " " +:+ "black cat" +:+ " " in
  isSearch input = true ∧ searchQuery input = "black cat".
Proof.
  apply (search_command "  " "/Search" " " "black cat" " ");
    first [reflexivity | discriminate].
Defined.

Lemma url_safe_lacks (c : ascii) (s : string) :
  isUnreserved c = false → c ≠ "%"%char → url_safe s = true → lacks c s = true.
Proof.
  intros Hu Hp. induction s as [|d s IH]; simpl; [done|].
  intros [Hd Hs]%andb_true_iff. rewrite IH by done. rewrite andb_true_r.
  destruct (Ascii.eqb_spec d c) as [->|]; [|done].
  rewrite Hu in Hd. simpl in Hd. apply Ascii.eqb_eq in Hd. done.
Qed.

(** X21. The URL of a search request is [/api/search?q=] followed by a
    non-empty encoded query made of unreserved characters and [%] only:
    none of the delimiters [& = # ? / +] nor a space occurs in it. *)
Theorem search_url (st : State) :
  isSearch (input st) = true →
  ∃ encoded,
    url (request_of st) = "/api/search?q=" +:+ encoded
    ∧ encoded ≠ ""
    ∧ url_safe encoded = true
    ∧ ∀ c, c ∈ list_ascii_of_string "&=#?/+ " → lacks c encoded = true.
Proof.
  intros Hs. exists (encodeURIComponent (searchQuery (input st))).
  unfold request_of. rewrite Hs. split; [done|split; [|split]].
  - unfold searchQuery. rewrite Hs.
    pose proof (search_query_nonempty (input st) Hs) as Hq.
    destruct (trim (slice (trim (input st)) 8)) as [|c q]; [done|]. simpl.
    unfold encodeChar. destruct (isUnreserved c); [done|].
    unfold utf8. by destruct (code c <? 128)%N.
  - apply url_safe_encodeURIComponent.
  - intros c Hc. apply url_safe_lacks; [| |apply url_safe_encodeURIComponent];
      simpl in Hc; set_unfold; destruct Hc as [->|[->|[->|[->|[->|[->|[->|[]]]]]]]]; done.
Qed.

Lemma search_url_witness :
  ∃ encoded,
    url (request_of {| messages := []; input := "/search a&b=c d"; isLoading := false |})
    = "/api/search?q=" +:+ encoded
    ∧ encoded ≠ ""
    ∧ url_safe encoded = true
    ∧ ∀ c, c ∈ list_ascii_of_string "&=#?/+ " → lacks c encoded = true.
Proof.
  apply (search_url {| messages := []; input := "/search a&b=c d"; isLoading := false |}).
  reflexivity.
Defined.

(** X22. The chat panel that receives the answer of the search endpoint
    of a server without credential ends a search with the apology entry
    that quotes the guidance worded for quiz generation. *)
Theorem search_without_key_end_to_end
        (eng : Server.Engine) (env : Server.Env) (world : ∀ u, Server.Outcome u)
        (q : option string) (network : ∀ r, Reply r)
        (T : list Wire.Message) (M : string) :
  Server.hasGeminiKey env = false →
  blank (or_default q "") = false →
  isSearch M = true →
  (∀ r, network r = receive (Proc.value (Server.serve world (Server.search eng env q)))) →
  messages (Proc.final (submit network {| messages := T; input := M; isLoading := false |}))
  = T ++ [user M; apology "Add GEMINI_API_KEY to your .env to enable quiz generation."].
Proof.
  intros Hk Hq Hs Hnet.
  assert (blank M = false) as Hb.
  { destruct (blank M) eqn:Hb; [|done]. apply trim_empty in Hb.
    unfold isSearch in Hs. rewrite Hb in Hs. discriminate Hs. }
  rewrite submit_run by done. cbn [input messages Proc.final]. rewrite Hs, Hnet.
  unfold Server.serve, Server.search. by rewrite trim_eqb_blank, Hq, Hk.
Qed.

End SearchCommand.

(* ===================================================================== *)
(** * Further properties of the quiz panel *)
(* ===================================================================== *)

Section QuizPanelMore.
Import JS QuizGenerator.

(** X23. Before submission a selection is recorded: the selected option
    is read back for that question, it is the only option shown as
    selected, other questions keep their answers, a later selection for
    the same question replaces it, and quiz, submission flag and score are
    untouched. *)
Theorem select_records (st : State) (qi ai : nat) :
  submitted st = false →
  let st' := handleAnswerChange st qi ai in
  answers st' !! qi = Some ai
  ∧ (∀ j, j ≠ qi → answers st' !! j = answers st !! j)
  ∧ (∀ o, isSelected st' qi o = true ↔ o = ai)
  ∧ (∀ ai', handleAnswerChange st' qi ai' = handleAnswerChange st qi ai')
  ∧ (questions st', submitted st', score st') = (questions st, submitted st, score st).
Proof.
  intros Hs st'. subst st'. unfold handleAnswerChange. rewrite Hs. simpl.
  split; [by rewrite lookup_insert_eq|split; [|split; [|split]]].
  - intros j Hj. by rewrite lookup_insert_ne.
  - intros o. unfold isSelected, answer_at, strict_eq. simpl.
    rewrite lookup_insert_eq, bool_decide_eq_true. split.
    + intros [= H]. lia.
    + by intros ->.
  - intros ai'. by rewrite insert_insert_eq.
  - done.
Qed.

Lemma select_records_witness :
  let st' := handleAnswerChange sample_ready 1 3 in
  answers st' !! 1%nat = Some 3%nat
  ∧ (∀ j, j ≠ 1%nat → answers st' !! j = answers sample_ready !! j)
  ∧ (∀ o, isSelected st' 1 o = true ↔ o = 3%nat)
  ∧ (∀ ai', handleAnswerChange st' 1 ai' = handleAnswerChange sample_ready 1 ai')
  ∧ (questions st', submitted st', score st')
    = (questions sample_ready, submitted sample_ready, score sample_ready).
Proof. apply (select_records sample_ready 1 3). reflexivity. Defined.

Lemma forEach_count_bounds (a : gmap nat nat) (qs : list Question) (index c : nat) :
  (c ≤ forEach_count a qs index c ≤ c + length qs)%nat.
Proof.
  revert index c. induction qs as [|q qs IH]; intros index c; simpl; [lia|].
  destruct (strict_eq _ _).
  - pose proof (IH (S index) (S c)). lia.
  - pose proof (IH (S index) c). lia.
Qed.

Lemma forEach_count_full (a : gmap nat nat) (qs : list Question) (index c : nat) :
  forEach_count a qs index c = (c + length qs)%nat
  ↔ ∀ i q, qs !! i = Some q →
           strict_eq (answer_at a (index + i)) (correctAnswer q) = true.
Proof.
  revert index c. induction qs as [|q qs IH]; intros index c; simpl.
  - split; [by intros _ i q' ?|lia].
  - destruct (strict_eq (answer_at a index) (correctAnswer q)) eqn:Hq.
    + replace (c + S (length qs))%nat with (S c + length qs)%nat by lia.
      rewrite IH. split.
      * intros H [|i] q'; simpl.
        -- intros [= <-]. by rewrite Nat.add_0_r.
        -- intros Hi. replace (index + S i)%nat with (S index + i)%nat by lia. by apply H.
      * intros H i q' Hi. replace (S index + i)%nat with (index + S i)%nat by lia.
        by apply (H (S i)).
    + split.
      * pose proof (forEach_count_bounds a qs (S index) c). lia.
      * intros H. specialize (H 0%nat q eq_refl). rewrite Nat.add_0_r in H. congruence.
Qed.

(** X24. For every quiz, also with malformed questions, the score set by
    a submission is at most the number of questions, and equals it exactly
    when the recorded answer of every question strictly equals its
    [correctAnswer]. *)
Theorem score_range (st : State) (qs : list Question) :
  questions st = Some qs →
  submitted st = false →
  ∃ n, score (handleSubmit st) = Some n
       ∧ (n ≤ length qs)%nat
       ∧ (n = length qs ↔
          ∀ i q, qs !! i = Some q →
                 strict_eq (answer_at (answers st) i) (correctAnswer q) = true).
Proof.
  intros Hq Hs. unfold handleSubmit. rewrite Hq, Hs. simpl. eexists.
  split; [done|split].
  - pose proof (forEach_count_bounds (answers st) qs 0 0). lia.
  - by rewrite (forEach_count_full (answers st) qs 0 0).
Qed.

Lemma score_range_witness :
  ∃ n, score (handleSubmit sample_answered) = Some n
       ∧ (n ≤ length sample_quiz)%nat
       ∧ (n = length sample_quiz ↔
          ∀ i q, sample_quiz !! i = Some q →
                 strict_eq (answer_at (answers sample_answered) i) (correctAnswer q) = true).
Proof. apply (score_range sample_answered sample_quiz); reflexivity. Defined.

(** The mark of a question with a valid index repeats the comparison of
    the scoring loop. *)
Lemma shows_right_counts (st : State) (q : Question) (qIndex : nat) :
  valid_index q →
  shows_right st q qIndex = strict_eq (answer_at (answers st) qIndex) (correctAnswer q).
Proof.
  intros (n & Hn & Hc). apply eq_true_iff_eq.
  unfold shows_right, isSelected, isCorrect, strict_eq.
  rewrite existsb_exists, bool_decide_eq_true, Hc. split.
  - intros (o & _ & [Hsel Hcor]%andb_true_iff).
    apply bool_decide_eq_true in Hsel, Hcor. congruence.
  - intros Ha. exists n. split; [apply in_seq; lia|].
    apply andb_true_iff. by rewrite !bool_decide_eq_true.
Qed.

(** The scoring loop counts the questions that show a selected and correct
    option. *)
Lemma forEach_count_marks (st : State) (qs : list Question) (index c : nat) :
  Forall valid_index qs →
  forEach_count (answers st) qs index c
  = (c + count_occ Bool.bool_dec
           (imap (λ qIndex q, shows_right st q (index + qIndex)) qs) true)%nat.
Proof.
  intros Hqs. revert index c.
  induction Hqs as [|q qs Hq Hqs IH]; intros index c; [simpl; lia|].
  cbn [forEach_count imap]. rewrite IH.
  rewrite Nat.add_0_r, (shows_right_counts st q index Hq).
  rewrite (imap_ext ((λ qIndex q0, shows_right st q0 (index + qIndex)) ∘ S)
                    (λ qIndex q0, shows_right st q0 (S index + qIndex)) qs);
    [|intros i x _; simpl; f_equal; lia].
  destruct (strict_eq (answer_at (answers st) index) (correctAnswer q)); simpl; lia.
Qed.

(** A question that shows an option marked wrong does not show a selected
    and correct one. *)
Lemma shows_wrong_not_right (st : State) (q : Question) (qIndex : nat) :
  shows_wrong st q qIndex = true → shows_right st q qIndex = false.
Proof.
  unfold shows_wrong, shows_right. rewrite existsb_exists.
  intros (o & _ & [[_ Hsel]%andb_true_iff Hc%negb_true_iff]%andb_true_iff).
  apply not_true_is_false. rewrite existsb_exists.
  intros (o' & _ & [Hsel' Hc']%andb_true_iff).
  unfold isSelected, strict_eq in Hsel, Hsel'.
  apply bool_decide_eq_true in Hsel, Hsel'.
  assert (o' = o) as -> by (rewrite Hsel in Hsel'; injection Hsel'; lia).
  congruence.
Qed.

(** X25. The marks of the rendering agree with the score.  When every
    question carries the index of one of its options, the score stored by
    [handleSubmit] is the number of questions drawn with an option that is
    both selected and correct; a question drawn with an option marked
    wrong is not among them; the answers are drawn as they were selected;
    and before the submission the class of an option does not depend on
    the correct answer. *)
Theorem marks_agree_with_score (st : State) (qs : list Question) :
  questions st = Some qs →
  submitted st = false →
  Forall valid_index qs →
  let st' := handleSubmit st in
  score st' = Some (count_occ Bool.bool_dec (marks st' qs) true)
  ∧ (∀ i q, qs !! i = Some q →
       shows_right st' q i = true
       ↔ ∃ o, (o < length (options q))%nat
              ∧ isSelected st' i o = true ∧ isCorrect q o = true)
  ∧ (∀ i q, qs !! i = Some q →
       shows_wrong st' q i = true → marks st' qs !! i = Some false)
  ∧ (∀ i o, isSelected st' i o = isSelected st i o)
  ∧ (∀ q q' i o, label_class st q i o = label_class st q' i o).
Proof.
  intros Hq Hs Hv st'.
  assert (answers st' = answers st) as Ha.
  { unfold st', handleSubmit. by rewrite Hq, Hs. }
  split; [|split; [|split; [|split]]].
  - unfold marks. unfold st' at 1. unfold handleSubmit. rewrite Hq, Hs.
    cbn [score]. f_equal.
    rewrite <- Ha, (forEach_count_marks st' qs 0 0 Hv). done.
  - intros i q Hi. unfold shows_right. rewrite existsb_exists. split.
    + intros (o & Ho%in_seq & [Hsel Hc]%andb_true_iff). exists o.
      split; [lia|done].
    + intros (o & Ho & Hsel & Hc). exists o. split; [apply in_seq; lia|].
      by rewrite Hsel, Hc.
  - intros i q Hi Hw. unfold marks. rewrite list_lookup_imap, Hi. simpl.
    by rewrite (shows_wrong_not_right st' q i Hw).
  - intros i o. unfold isSelected. by rewrite Ha.
  - intros q q' i o. unfold label_class. by rewrite Hs.
Qed.

End QuizPanelMore.

(* ===================================================================== *)
(** * Generating a quiz *)
(* ===================================================================== *)

Section Generate.
Import JS QuizGenerator.

(** X26. Generating with a blank topic, or while a generation is in
    flight, does nothing: the state is unchanged, nothing is fetched and
    no alert is shown. *)
Theorem generate_guard (st : State) (world : ∀ e, Reply e) :
  blank (topic st) = true ∨ isGenerating st = true →
  generate world st = {| Proc.value := tt; Proc.final := st; Proc.log := [] |}.
Proof.
  intros H. unfold generate, handleGenerate. rewrite trim_eqb_blank.
  destruct H as [-> | ->]; [done|]. by rewrite orb_true_r.
Qed.

Lemma generate_guard_witness :
  generate (serving sample_quiz) initial
  = {| Proc.value := tt; Proc.final := initial; Proc.log := [] |}.
Proof. apply generate_guard. left. reflexivity. Defined.

(** The run of an accepted generation. *)
Lemma generate_run (st : State) (world : ∀ e, Reply e) :
  blank (topic st) = false →
  isGenerating st = false →
  let cleared :=
    {| topic := topic st; questions := None; answers := ∅; submitted := false;
       score := None; isGenerating := true |} in
  let fetched := world (generate_request st) in
  generate world st
  = {| Proc.value := tt;
       Proc.final :=
         {| topic := topic st; questions := generated_questions fetched; answers := ∅;
            submitted := false; score := None; isGenerating := false |};
       Proc.log :=
         (cleared, generate_request st)
         :: (if generated fetched then [] else [(cleared, Alert GENERATE_ALERT)]) |}.
Proof.
  intros Hb Hg cleared fetched.
  assert (trim (topic st) ≠ "") as Hne by (intros H%trim_empty; congruence).
  unfold generate, handleGenerate. rewrite (eqb_empty_false _ Hne), Hg. cbn [orb].
  unfold generate_try. cbn [Proc.run Proc.bind mbind proc_bind].
  subst fetched. unfold generate_request.
  destruct (world _) as [e|[|] [e|qs]]; simpl; done.
Qed.

(** X27. An accepted generation, whatever the network does: clears quiz,
    answers, submission flag and score before it sends its one request for
    the raw topic; ends with [isGenerating] cleared and the questions of a
    successful response, or none; and shows the alert exactly when the
    request failed. *)
Theorem generate_settles (st : State) (world : ∀ e, Reply e) :
  blank (topic st) = false →
  isGenerating st = false →
  let cleared :=
    {| topic := topic st; questions := None; answers := ∅; submitted := false;
       score := None; isGenerating := true |} in
  let fetched := world (generate_request st) in
  Proc.final (generate world st)
  = {| topic := topic st; questions := generated_questions fetched; answers := ∅;
       submitted := false; score := None; isGenerating := false |}
  ∧ Proc.log (generate world st)
    = (cleared, generate_request st)
      :: (if generated fetched then [] else [(cleared, Alert GENERATE_ALERT)]).
Proof.
  intros Hb Hg cleared fetched.
  by rewrite (generate_run st world Hb Hg).
Qed.

Lemma generate_settles_witness :
  let st := sample_submitted in
  let world := serving sample_quiz in
  let cleared :=
    {| topic := topic st; questions := None; answers := ∅; submitted := false;
       score := None; isGenerating := true |} in
  let fetched := world (generate_request st) in
  Proc.final (generate world st)
  = {| topic := topic st; questions := generated_questions fetched; answers := ∅;
       submitted := false; score := None; isGenerating := false |}
  ∧ Proc.log (generate world st)
    = (cleared, generate_request st)
      :: (if generated fetched then [] else [(cleared, Alert GENERATE_ALERT)]).
Proof.
  intros st world. apply (generate_settles st world); reflexivity.
Defined.

(** X28. A submitted panel ignores selections, but after a successful
    generation it behaves as a fresh panel on the new quiz: selections are
    recorded again, the old score is gone, and every sequence of actions
    gives what it gives on the fresh panel. *)
Theorem generate_unfreezes (st : State) (world : ∀ e, Reply e) (qs : list Question) :
  submitted st = true →
  blank (topic st) = false →
  isGenerating st = false →
  world (generate_request st) = FetchResponds true (inr (Some qs)) →
  let st' := Proc.final (generate world st) in
  let fresh := {| topic := topic st; questions := Some qs; answers := ∅;
                  submitted := false; score := None; isGenerating := false |} in
  (∀ qi ai, handleAnswerChange st qi ai = st)
  ∧ (∀ qi ai, answers (handleAnswerChange st' qi ai) !! qi = Some ai)
  ∧ score st' = None
  ∧ (∀ acts, foldl step st' acts = foldl step fresh acts).
Proof.
  intros Hs Hb Hg Hw st' fresh.
  assert (st' = fresh) as ->.
  { unfold st', fresh. by rewrite (generate_run st world Hb Hg), Hw. }
  split; [|split; [|split]]; [|  |done|done].
  - intros qi ai. unfold handleAnswerChange. by rewrite Hs.
  - intros qi ai. simpl. by rewrite lookup_insert_eq.
Qed.

Lemma generate_unfreezes_witness :
  let st := sample_submitted in
  let world := serving sample_quiz in
  let st' := Proc.final (generate world st) in
  let fresh := {| topic := topic st; questions := Some sample_quiz; answers := ∅;
                  submitted := false; score := None; isGenerating := false |} in
  (∀ qi ai, handleAnswerChange st qi ai = st)
  ∧ (∀ qi ai, answers (handleAnswerChange st' qi ai) !! qi = Some ai)
  ∧ score st' = None
  ∧ (∀ acts, foldl step st' acts = foldl step fresh acts).
Proof.
  intros st world.
  apply (generate_unfreezes st world sample_quiz); reflexivity.
Defined.

(** X29. The quiz panel in front of the server.  Without credential the
    generation ends without quiz and with the alert.  With credential: an
    upstream text that parses to a value other than [null] makes the panel
    store the questions read from it and show no alert; a text that parses
    to [null] is answered 200 by the server, but reading its questions
    throws in the panel, which ends without quiz and with the alert; and so
    does a text that does not parse and an upstream call that fails. *)
Theorem generate_end_to_end
        (browser : Server.Engine)
        (decode : Wire.Json → option (list Question))
        (eng : Server.Engine) (env : Server.Env) (world : ∀ u, Server.Outcome u)
        (st : State) :
  blank (topic st) = false →
  isGenerating st = false →
  let r := generate (quiz_backend browser decode eng env world) st in
  let failed := questions (Proc.final r) = None
                ∧ Proc.requests r = [generate_request st; Alert GENERATE_ALERT] in
  (Server.hasGeminiKey env = false → failed)
  ∧ (∀ client t d,
       Server.genAI env = Some client →
       world (quiz_call client st) = Server.GeneratedText t →
       Server.JSON_parse eng t = inr d →
       d ≠ Wire.JsNull →
       questions (Proc.final r) = decode d
       ∧ Proc.requests r = [generate_request st])
  ∧ (∀ client t,
       Server.genAI env = Some client →
       world (quiz_call client st) = Server.GeneratedText t →
       Server.JSON_parse eng t = inr Wire.JsNull →
       failed)
  ∧ (∀ client t e,
       Server.genAI env = Some client →
       world (quiz_call client st) = Server.GeneratedText t →
       Server.JSON_parse eng t = inl e →
       failed)
  ∧ (∀ client e,
       Server.genAI env = Some client →
       world (quiz_call client st) = Server.GenerateThrows e →
       failed).
Proof.
  intros Hb Hg r failed. subst failed r.
  rewrite (generate_run st (quiz_backend browser decode eng env world) Hb Hg).
  unfold Proc.requests. cbn [Proc.final Proc.log questions].
  unfold generate_request, quiz_backend, quiz_call.
  split; [|split; [|split; [|split]]].
  - intros Hk.
    assert (Server.genAI env = None) as Hc.
    { unfold Server.genAI. by rewrite Hk. }
    unfold Server.serve, Server.generate_quiz, Server.generate_quiz_try. rewrite Hc.
    done.
  - intros client t d Hc Hw Hd Hn.
    rewrite (generate_quiz_answer eng env _ world client Hc), Hw, Hd.
    by destruct d.
  - intros client t Hc Hw Hd.
    rewrite (generate_quiz_answer eng env _ world client Hc), Hw, Hd. done.
  - intros client t e Hc Hw Hd.
    rewrite (generate_quiz_answer eng env _ world client Hc), Hw, Hd. done.
  - intros client e Hc Hw.
    rewrite (generate_quiz_answer eng env _ world client Hc), Hw. done.
Qed.

End Generate.

(* ===================================================================== *)
(** * The unused classifier and sample runs *)
(* ===================================================================== *)

Section SearchClassifier.
Import JS Server.

Lemma or_default_some (m d : string) : m ≠ "" → or_default (Some m) d = m.
Proof. intros Hm. simpl. by rewrite (eqb_empty_false _ Hm). Qed.

(** X13. The classifier of search errors never returns the empty string,
    and classifying its own result again changes nothing. *)
Theorem buildSearchErrorMessage_stable (error : Thrown) :
  buildSearchErrorMessage error ≠ ""
  ∧ buildSearchErrorMessage (Error (Some (buildSearchErrorMessage error)))
    = buildSearchErrorMessage error.
Proof.
  assert (or_default (message error) "Search request failed." ≠ "") as Hraw
    by (by apply or_default_nonempty).
  unfold buildSearchErrorMessage at 1 3 4.
  set (raw := or_default (message error) "Search request failed.") in *.
  cbv zeta.
  destruct (includes (toLowerCase raw) "permission" || includes (toLowerCase raw) "api key")
    eqn:H1; [by split|].
  destruct (includes (toLowerCase raw) "daily" || includes (toLowerCase raw) "limit"
            || includes (toLowerCase raw) "quota") eqn:H2; [by split|].
  split; [done|]. unfold buildSearchErrorMessage. cbn [message].
  rewrite (or_default_some raw _ Hraw). cbv zeta. by rewrite H1, H2.
Qed.

End SearchClassifier.

Section SampleRuns.
Import JS.

Lemma search_results_follow_hits_witness :
  let items := [ {| Server.hit_title := Some "Cat"; Server.hit_snippet := Some "A cat" |};
                 {| Server.hit_title := Some "Black cat"; Server.hit_snippet := None |} ] in
  let world : ∀ u, Server.Outcome u :=
    λ u, match u with
         | Server.GenerateContent _ _ _ => Server.GenerateThrows (Error None)
         | Server.FetchUrl _ _ =>
             Server.FetchResponds true
               (inr {| Server.error_message := None; Server.query_search := Some items |})
         end in
  let r := Proc.value (Server.serve world (Server.search Server.v8 Server.configured (Some " cat "))) in
  (None ∉ (Server.hit_title <$> items) →
     ∃ rs, r = {| Server.status := 200; Server.body := Server.SearchBody rs |}
           ∧ Server.hit_title <$> items = Some <$> (Wire.title <$> rs))
  ∧ (None ∈ (Server.hit_title <$> items) → Server.status r = 500%nat).
Proof.
  intros items world.
  apply (search_results_follow_hits Server.v8 Server.configured (Some " cat ") world
           {| Server.error_message := None; Server.query_search := Some items |} items);
    reflexivity.
Defined.

Lemma search_failure_details_raw_witness :
  Proc.value (Server.serve Server.unreachable
                (Server.search Server.v8 Server.configured (Some "cats")))
  = {| Server.status := 500;
       Server.body := Server.ErrorBody "Failed to perform search"
                        (Some (or_default (Some "fetch failed") "Search request failed")) |}
  ∧ (∀ m, Some "fetch failed" = Some m → m ≠ "" →
       Server.body (Proc.value (Server.serve Server.unreachable
                                  (Server.search Server.v8 Server.configured (Some "cats"))))
       = Server.ErrorBody "Failed to perform search" (Some m)).
Proof.
  apply (search_failure_details_raw Server.v8 Server.configured (Some "cats")
           Server.unreachable true (Error (Some "fetch failed"))).
  - reflexivity.
  - reflexivity.
  - left. reflexivity.
Defined.

Lemma generate_quiz_call_witness :
  Proc.requests (Server.serve (Server.replying "{}")
                   (Server.generate_quiz Server.v8 Server.configured (Some "Osmosis")))
  = [Server.GenerateContent {| Server.apiKey := "key" |} Server.quiz_model
       (Server.Prompt (Server.quiz_prompt (Some "Osmosis")))]
  ∧ startsWith (Server.quiz_prompt (Some "Osmosis")) Server.QUIZ_INSTRUCTIONS = true
  ∧ includes (Server.quiz_prompt (Some "Osmosis")) ("Topic: " +:+ template (Some "Osmosis")) = true.
Proof.
  apply (generate_quiz_call Server.v8 Server.configured (Some "Osmosis")
           (Server.replying "{}") {| Server.apiKey := "key" |}).
  reflexivity.
Defined.

Lemma chat_without_key_end_to_end_witness :
  StudyChat.submit
    (StudyChat.chat_backend Server.v8 {| Server.GEMINI_API_KEY := None |} Server.unreachable)
    {| StudyChat.messages := [StudyChat.greeting]; StudyChat.input := "What is osmosis?";
       StudyChat.isLoading := false |}
  = {| Proc.value := tt;
       Proc.final :=
         {| StudyChat.messages :=
              [StudyChat.greeting]
              ++ [StudyChat.user "What is osmosis?";
                  StudyChat.apology "Add GEMINI_API_KEY to your .env to enable chat."];
            StudyChat.input := ""; StudyChat.isLoading := false |};
       Proc.log :=
         [({| StudyChat.messages := [StudyChat.greeting] ++ [StudyChat.user "What is osmosis?"];
              StudyChat.input := ""; StudyChat.isLoading := true |},
           {| StudyChat.url := "/api/chat"; StudyChat.method := "POST";
              StudyChat.body := Some ([StudyChat.greeting] ++ [StudyChat.user "What is osmosis?"]) |})] |}.
Proof.
  apply (chat_without_key_end_to_end Server.v8 {| Server.GEMINI_API_KEY := None |}
           Server.unreachable [StudyChat.greeting] "What is osmosis?"); reflexivity.
Defined.

Lemma chat_with_key_end_to_end_witness :
  let T := [StudyChat.greeting] in
  let M := "What is osmosis?" in
  let world := Server.replying "Diffusion of water." in
  let conversation := Server.buildConversation (map Some (T ++ [StudyChat.user M])) true in
  let call := Server.GenerateContent {| Server.apiKey := "key" |} Server.chat_model
                (Server.Contents conversation) in
  last conversation
  = Some {| Server.role := "user"; Server.parts := [{| Server.text := JStr M |}] |}
  ∧ StudyChat.messages
      (Proc.final (StudyChat.submit (StudyChat.chat_backend Server.v8 Server.configured world)
                     {| StudyChat.messages := T; StudyChat.input := M;
                        StudyChat.isLoading := false |}))
    = T ++ [StudyChat.user M;
            match world call with
            | Server.GeneratedText t => StudyChat.assistant (JStr t)
            | Server.GenerateThrows e => StudyChat.apology (Server.createErrorMessage e)
            end].
Proof.
  intros T M world.
  apply (chat_with_key_end_to_end Server.v8 Server.configured world
           {| Server.apiKey := "key" |} T M); reflexivity.
Defined.

Lemma search_without_key_end_to_end_witness :
  let network : ∀ r, StudyChat.Reply r :=
    λ _, StudyChat.receive (Proc.value (Server.serve Server.no_hits
           (Server.search Server.v8 {| Server.GEMINI_API_KEY := None |} (Some "cats")))) in
  StudyChat.messages
    (Proc.final (StudyChat.submit network
                   {| StudyChat.messages := [StudyChat.greeting];
                      StudyChat.input := "/search cats"; StudyChat.isLoading := false |}))
  = [StudyChat.greeting]
    ++ [StudyChat.user "/search cats";
        StudyChat.apology "Add GEMINI_API_KEY to your .env to enable quiz generation."].
Proof.
  intros network.
  apply (search_without_key_end_to_end Server.v8 {| Server.GEMINI_API_KEY := None |}
           Server.no_hits (Some "cats") network [StudyChat.greeting] "/search cats").
  - reflexivity.
  - reflexivity.
  - reflexivity.
  - intros r. reflexivity.
Defined.

Lemma marks_agree_with_score_witness :
  let st := QuizGenerator.sample_answered in
  let qs := QuizGenerator.sample_quiz in
  let st' := QuizGenerator.handleSubmit st in
  (QuizGenerator.score st' = Some 2%nat
   ∧ QuizGenerator.marks st' qs = [true; true; false; false; false]
   ∧ QuizGenerator.shows_wrong st' (QuizGenerator.sample_question "Q3" 3) 2 = true)
  ∧ QuizGenerator.score st'
    = Some (count_occ Bool.bool_dec (QuizGenerator.marks st' qs) true)
  ∧ (∀ i q, qs !! i = Some q →
       QuizGenerator.shows_right st' q i = true
       ↔ ∃ o, (o < length (QuizGenerator.options q))%nat
              ∧ QuizGenerator.isSelected st' i o = true
              ∧ QuizGenerator.isCorrect q o = true)
  ∧ (∀ i q, qs !! i = Some q →
       QuizGenerator.shows_wrong st' q i = true →
       QuizGenerator.marks st' qs !! i = Some false)
  ∧ (∀ i o, QuizGenerator.isSelected st' i o = QuizGenerator.isSelected st i o)
  ∧ (∀ q q' i o, QuizGenerator.label_class st q i o = QuizGenerator.label_class st q' i o).
Proof.
  intros st qs st'. split; [by vm_compute|].
  apply (marks_agree_with_score st qs); [reflexivity|reflexivity|].
  repeat constructor;
    [exists 2%nat|exists 0%nat|exists 3%nat|exists 1%nat|exists 1%nat];
    (split; [simpl; lia|reflexivity]).
Defined.

Lemma generate_end_to_end_witness :
  let st := QuizGenerator.sample_submitted in
  let panel eng :=
    QuizGenerator.generate
      (QuizGenerator.quiz_backend Server.v8 QuizGenerator.typed_questions eng
         Server.configured (Server.replying "{}")) st in
  (QuizGenerator.questions (Proc.final (panel (Server.parsing QuizGenerator.sample_quiz_json)))
   = Some QuizGenerator.sample_quiz
   ∧ Proc.requests (panel (Server.parsing QuizGenerator.sample_quiz_json))
     = [QuizGenerator.generate_request st])
  ∧ (QuizGenerator.questions (Proc.final (panel (Server.parsing Wire.JsNull))) = None
     ∧ Proc.requests (panel (Server.parsing Wire.JsNull))
       = [QuizGenerator.generate_request st;
          QuizGenerator.Alert QuizGenerator.GENERATE_ALERT]).
Proof.
  intros st panel. split.
  - destruct (generate_end_to_end Server.v8 QuizGenerator.typed_questions
                (Server.parsing QuizGenerator.sample_quiz_json) Server.configured
                (Server.replying "{}") st eq_refl eq_refl) as (_ & H & _).
    apply (H {| Server.apiKey := "key" |} "{}" QuizGenerator.sample_quiz_json);
      [reflexivity|reflexivity|reflexivity|discriminate].
  - destruct (generate_end_to_end Server.v8 QuizGenerator.typed_questions
                (Server.parsing Wire.JsNull) Server.configured
                (Server.replying "{}") st eq_refl eq_refl) as (_ & _ & H & _).
    apply (H {| Server.apiKey := "key" |} "{}"); reflexivity.
Defined.

End SampleRuns.
